(** * Mobile/app.py: job orchestration of the download service

    A shallow embedding of [src/Mobile/app.py] (the Flask application in
    front of yt-dlp) and the properties of its job store, progress hook,
    download worker, dispatcher, format listing and cleanup sweep.

    Conventions of the embedding:
    - the process-wide dict [jobs] is a [gmap string job];
    - Python exceptions that the code can raise are the left summand of
      [result], a small error monad; a builtin that fails returns [None];
    - yt-dlp (the collaborator) is not part of the repository: what it
      delivers (progress events, the prepared file name, the format list,
      a raised exception) is an input of the model;
    - [time.time()], [uuid.uuid4()] and [os.remove] are inputs as well: the
      clock reading, the identifier drawn and whether a removal succeeds;
    - Python numbers stored in [progress] are [pyfloat]: an exact rational,
      an infinity or a NaN (binary64 rounding is not modelled), and Python's
      [float()] builtin is a parameter of the development. *)

From stdpp Require Import gmap strings list fin_maps pretty sorting.
From Stdlib Require Import QArith Ascii String.

#[local] Set Warnings "-register-all,-clear-no-such-hyp".

Local Open Scope Z_scope.
Local Open Scope string_scope.

(** ** Python values that the code manipulates *)

(** A Python [float] (or the [int]s 0 and 100 stored in the same field). *)
Inductive pyfloat :=
  | Finite (q : Q)
  | Infinite (negative : bool)
  | NaN.

(** [a <= b] on Python numbers; every comparison with a NaN is false. *)
Definition pyfloat_le (a b : pyfloat) : bool :=
  match a, b with
  | NaN, _ | _, NaN => false
  | Finite x, Finite y => Qle_bool x y
  | Infinite true, _ => true
  | _, Infinite false => true
  | Infinite false, _ => false
  | _, Infinite true => false
  end.

(** [0 <= x <= 100]. *)
Definition in_percent_range (x : pyfloat) : bool :=
  pyfloat_le (Finite 0) x && pyfloat_le x (Finite 100).

(** Values of the option dicts handed to yt-dlp ([ydl_opts]). *)
Inductive pyval :=
  | VNone
  | VBool (b : bool)
  | VStr (s : string)
  | VList (l : list pyval)
  | VDict (d : list (string * pyval))
  | VHook (job_id : string).

(** [d.get(k)] on a dict literal kept in source order. *)
Fixpoint dict_get (k : string) (d : list (string * pyval)) : option pyval :=
  match d with
  | [] => None
  | (k', v) :: d' => if String.eqb k k' then Some v else dict_get k d'
  end.

(** Truthiness of an optional string: [None] and [''] are falsy. *)
Definition truthy (s : option string) : bool :=
  match s with
  | Some (String _ _) => true
  | _ => false
  end.

(** ** String and path builtins *)

(** [s.replace(c, '')] for a one-character [c]: every occurrence goes. *)
Fixpoint str_remove (c : ascii) (s : string) : string :=
  match s with
  | EmptyString => EmptyString
  | String a s' =>
      if Ascii.eqb a c then str_remove c s' else String a (str_remove c s')
  end.

(** [s.rfind(c)] scanning from index [i], [last] being the answer so far. *)
Fixpoint rfind_from (c : ascii) (i : Z) (s : string) (last : Z) : Z :=
  match s with
  | EmptyString => last
  | String a s' => rfind_from c (i + 1) s' (if Ascii.eqb a c then i else last)
  end.

Definition rfind (c : ascii) (s : string) : Z := rfind_from c 0 s (-1).

(** [s[n:]] and [s[:n]]. *)
Fixpoint str_drop (n : nat) (s : string) : string :=
  match n, s with
  | O, _ => s
  | S n', String _ s' => str_drop n' s'
  | S _, EmptyString => EmptyString
  end.

Fixpoint str_take (n : nat) (s : string) : string :=
  match n, s with
  | O, _ => EmptyString
  | S n', String a s' => String a (str_take n' s')
  | S _, EmptyString => EmptyString
  end.

Definition slash : ascii := "/"%char.
Definition dot : ascii := "."%char.

Definition starts_with_slash (s : string) : bool :=
  match s with
  | String a _ => Ascii.eqb a slash
  | EmptyString => false
  end.

Fixpoint ends_with_slash (s : string) : bool :=
  match s with
  | EmptyString => false
  | String a EmptyString => Ascii.eqb a slash
  | String _ s' => ends_with_slash s'
  end.

(** [os.path.join(a, b)] (posixpath). *)
Definition path_join (a b : string) : string :=
  if starts_with_slash b then b
  else if (String.eqb a "" || ends_with_slash a)%bool then a +:+ b
  else a +:+ "/" +:+ b.

(** [os.path.basename(p)]: [p[p.rfind('/') + 1:]]. *)
Definition basename (p : string) : string :=
  str_drop (Z.to_nat (rfind slash p + 1)) p.

(** Is some character of [p[i:j]] different from [c]? *)
Definition some_other_between (c : ascii) (i j : Z) (p : string) : bool :=
  negb (String.eqb
          (str_remove c (str_take (Z.to_nat (j - i)) (str_drop (Z.to_nat i) p)))
          "").

(** [os.path.splitext(p)]: the extension starts at the last dot of the last
    component, unless that component has only dots before it. *)
Definition splitext (p : string) : string * string :=
  let sepIndex := rfind slash p in
  let dotIndex := rfind dot p in
  if bool_decide (sepIndex < dotIndex) then
    if some_other_between dot (sepIndex + 1) dotIndex p
    then (str_take (Z.to_nat dotIndex) p, str_drop (Z.to_nat dotIndex) p)
    else (p, "")
  else (p, "").

(** ** Number parsing builtins *)

Definition digit_val (a : ascii) : option Z :=
  let n := Z.of_N (N_of_ascii a) in
  if bool_decide (48 <= n <= 57) then Some (n - 48) else None.

Definition is_digit (a : ascii) : bool :=
  match digit_val a with Some _ => true | None => false end.

(** ASCII whitespace, as stripped by [int()] and [float()]. *)
Definition is_space (a : ascii) : bool :=
  let n := Z.of_N (N_of_ascii a) in
  bool_decide (9 <= n <= 13 \/ n = 32).

Fixpoint lstrip (s : string) : string :=
  match s with
  | String a s' => if is_space a then lstrip s' else s
  | EmptyString => EmptyString
  end.

Fixpoint rstrip (s : string) : string :=
  match s with
  | String a s' =>
      let r := rstrip s' in
      if (is_space a && String.eqb r "")%bool then "" else String a r
  | EmptyString => EmptyString
  end.

Definition strip (s : string) : string := rstrip (lstrip s).

(** The longest prefix of the form digit (["_"] digit)*: its value, its
    number of digits and what follows it. *)
Fixpoint take_digits (acc : Z) (n : nat) (s : string) : Z * nat * string :=
  match s with
  | String a s' =>
      match digit_val a with
      | Some d => take_digits (10 * acc + d) (S n) s'
      | None =>
          match n, s' with
          | S _, String b _ =>
              if (Ascii.eqb a "_" && is_digit b)%bool
              then take_digits acc n s' else (acc, n, s)
          | _, _ => (acc, n, s)
          end
      end
  | EmptyString => (acc, n, s)
  end.

(** An optional sign: [true] for a minus. *)
Definition take_sign (s : string) : bool * string :=
  match s with
  | String "+" s' => (false, s')
  | String "-" s' => (true, s')
  | _ => (false, s)
  end.

(** [int(s)] in base 10; [None] is [ValueError]. *)
Definition py_int (s : string) : option Z :=
  let '(neg, t) := take_sign (strip s) in
  match take_digits 0 0 t with
  | (v, S _, EmptyString) => Some (if neg then - v else v)
  | _ => None
  end.

Definition lower (a : ascii) : ascii :=
  let n := N_of_ascii a in
  if bool_decide (65 <= n <= 90)%N then ascii_of_N (n + 32) else a.

Fixpoint str_lower (s : string) : string :=
  match s with
  | String a s' => String (lower a) (str_lower s')
  | EmptyString => EmptyString
  end.

(** The exact value of the literal [m * 10 ^ e]. *)
Definition scale10 (m e : Z) : Q :=
  if bool_decide (0 <= e) then inject_Z (m * 10 ^ e)
  else Qred (Qmake m (Z.to_pos (10 ^ (- e)))).

(** The decimal part of [float()]'s grammar, [None] when [t] is not a
    number: [digits][.digits][(e|E)[sign]digits]. *)
Definition decimal_literal (t : string) : option Q :=
  let '(ip, ni, r1) := take_digits 0 0 t in
  let '(fp, nf, r2) :=
    match r1 with
    | String "." r => take_digits 0 0 r
    | _ => (0, O, r1)
    end in
  let mant := ip * 10 ^ Z.of_nat nf + fp in
  match (ni + nf)%nat with
  | O => None
  | S _ =>
      match r2 with
      | EmptyString => Some (scale10 mant (- Z.of_nat nf))
      | String a r =>
          if Ascii.eqb (lower a) "e" then
            let '(eneg, r') := take_sign r in
            match take_digits 0 0 r' with
            | (ev, S _, EmptyString) =>
                Some (scale10 mant ((if eneg then - ev else ev) - Z.of_nat nf))
            | _ => None
            end
          else None
      end
  end.

(** A reading of Python's [float(s)] on ASCII text with the exact value of
    the literal; [None] is [ValueError].  It instantiates the parameter
    [py_float] of the development at concrete inputs. *)
Definition decimal_float (s : string) : option pyfloat :=
  let '(neg, t) := take_sign (strip s) in
  let l := str_lower t in
  if (String.eqb l "inf" || String.eqb l "infinity")%bool
  then Some (Infinite neg)
  else if String.eqb l "nan" then Some NaN
  else match decimal_literal t with
       | Some q => Some (Finite (if neg then Qred (- q) else q))
       | None => None
       end.

(** ** Exceptions and the error monad *)

Inductive exn :=
  | KeyError (key : string)
  | ValueError (arg : string)
  | StopIteration
  | CollaboratorError (msg : string).

Definition result (A : Type) : Type := exn + A.

Definition ok {A} (x : A) : result A := inr x.
Definition raise {A} (e : exn) : result A := inl e.

Definition bind {A B} (m : result A) (k : A -> result B) : result B :=
  match m with
  | inl e => inl e
  | inr x => k x
  end.

Notation "'let*' x ':=' m 'in' k" := (bind m (fun x => k))
  (at level 10, x pattern, m at level 100, k at level 200).

(** [[f(x) for x in l]] where [f] may raise. *)
Fixpoint try_map {A B} (f : A -> result B) (l : list A) : result (list B) :=
  match l with
  | [] => ok []
  | x :: l' => let* y := f x in let* ys := try_map f l' in ok (y :: ys)
  end.

(** [for x in l: st = body(st, x)] where the body may raise. *)
Fixpoint try_fold {A S} (body : S -> A -> result S) (st : S) (l : list A)
  : result S :=
  match l with
  | [] => ok st
  | x :: l' => let* st' := body st x in try_fold body st' l'
  end.

(** ** The job store *)

(** The dict stored under a job identifier. *)
Record job := Job {
  status : string;
  text : option string;
  progress : pyfloat;
  filename : option string;
  timestamp : Q
}.

(** [update_job_status]: the record is replaced wholesale and stamped with
    the clock reading [now].  The Python defaults [text=None], [progress=0],
    [filename=None] are written out at the call sites. *)
Definition update_job_status (now : Q) (job_id status : string)
    (text : option string) (progress : pyfloat) (filename : option string)
    (jobs : gmap string job) : gmap string job :=
  <[job_id := Job status text progress filename now]> jobs.

(** The dict a yt-dlp progress hook receives: [d['status']] and
    [d.get('_percent_str')]. *)
Record event := Event {
  ev_status : string;
  ev_percent_str : option string
}.

(** What [extract_info] followed by [prepare_filename] ends in. *)
Inductive outcome :=
  | Returned (prepared : string)
  | Raised (msg : string).

(** The [format_opts] dict built by the dispatcher; [None] is a missing key. *)
Record format_opts := FormatOpts {
  fo_format_id : option string;
  fo_is_audio : option bool;
  fo_postprocessors : option (list pyval)
}.

(** The JSON body of a request. *)
Record request := Request {
  rq_url : option string;
  rq_type : option string;
  rq_format_id : option string
}.

(** The arguments of a running [download_task] thread. *)
Record worker := Worker {
  w_url : string;
  w_opts : format_opts
}.

(** The process: the [jobs] dict, the files on disk, the worker threads
    that are still before their write of line 79, the identifiers [uuid4]
    has drawn so far, and the worker threads that have made that write and
    are leaving the [with] block. *)
Record system := System {
  jobs : gmap string job;
  files : gset string;
  workers : gmap string worker;
  issued : gset string;
  closing : gset string
}.

Definition initial : system := System ∅ ∅ ∅ ∅ ∅.

Definition with_jobs (st : system) (js : gmap string job) : system :=
  System js (files st) (workers st) (issued st) (closing st).

(** Responses of the endpoints. *)
Inductive response :=
  | JobId (code : Z) (job_id : string)
  | JobRecord (code : Z) (j : job)
  | Attachment (code : Z) (directory name : option string)
  | Error (code : Z) (msg : string).

Definition user_agent : string :=
  "Mozilla/5.0 (Windows NT 10.0; Win64; x64) AppleWebKit/537.36 (KHTML, like Gecko) Chrome/120.0.0.0 Safari/537.36".

Definition extractor_args : pyval :=
  VDict [("youtube",
          VDict [("player_client",
                  VList [VStr "android"; VStr "web"; VStr "mweb"; VStr "ios"]);
                 ("player_skip_bundle_url", VBool true)])].

(** ['cookies.txt' if os.path.exists('cookies.txt') else None]. *)
Definition cookiefile (fs : gset string) : pyval :=
  if bool_decide ("cookies.txt" ∈ fs) then VStr "cookies.txt" else VNone.

Section App.

#[local] Set Default Proof Using "Type".

(** Python's [float()] on a string; [None] is the [ValueError]. *)
Variable py_float : string -> option pyfloat.

(** [os.getcwd()] when the module is loaded. *)
Variable cwd : string.

Definition DOWNLOAD_FOLDER : string := path_join cwd "downloads".

(** *** Progress reporter *)

(** [d.get('_percent_str', '0%').replace('%', '')]. *)
Definition percent_text (d : event) : string :=
  str_remove "%" (default "0%" (ev_percent_str d)).

(** [try: progress = float(p)  except: progress = 0]. *)
Definition float_or_zero (p : string) : pyfloat :=
  match py_float p with
  | Some x => x
  | None => Finite 0
  end.

(** [progress_hook(job_id)(d)]. *)
Definition progress_hook (now : Q) (job_id : string) (d : event)
    (js : gmap string job) : gmap string job :=
  if String.eqb (ev_status d) "downloading" then
    let p := percent_text d in
    let progress := float_or_zero p in
    update_job_status now job_id "downloading"
      (Some ("Downloading... " +:+ p +:+ "%")) progress None js
  else if String.eqb (ev_status d) "finished" then
    update_job_status now job_id "processing"
      (Some "Processing with ffmpeg...") (Finite 100) None js
  else js.

(** *** Download worker *)

(** The [ydl_opts] dict literal of [download_task]. *)
Definition download_ydl_opts (fs : gset string) (job_id : string)
    (fo : format_opts) : list (string * pyval) :=
  [ ("outtmpl",
     VStr (path_join DOWNLOAD_FOLDER (job_id +:+ "_%(title)s.%(ext)s")));
    ("progress_hooks", VList [VHook job_id]);
    ("format", VStr (default "best" (fo_format_id fo)));
    ("extractor_args", extractor_args);
    ("nocheckcertificate", VBool true);
    ("quiet", VBool false);
    ("no_warnings", VBool false);
    ("http_headers",
     VDict [("User-Agent", VStr user_agent);
            ("Accept",
             VStr "text/html,application/xhtml+xml,application/xml;q=0.9,*/*;q=0.8");
            ("Accept-Language", VStr "en-us,en;q=0.5");
            ("Sec-Fetch-Mode", VStr "navigate")]);
    ("cookiefile", cookiefile fs);
    ("postprocessors", VList (default [] (fo_postprocessors fo))) ].

(** The name the worker records for a prepared file name. *)
Definition final_filename (fo : format_opts) (prepared : string) : string :=
  if default false (fo_is_audio fo)
  then (splitext prepared).1 +:+ ".mp3"
  else prepared.

(** The write that ends the body of the [with] block: the one of line 79,
    which is still inside the block, when [extract_info] and
    [prepare_filename] returned, or the one of the [except] clause when
    one of them raised. *)
Definition download_task_finish (now : Q) (job_id : string) (fo : format_opts)
    (o : outcome) (js : gmap string job) : gmap string job :=
  match o with
  | Returned prepared =>
      update_job_status now job_id "completed" (Some "Finished!") (Finite 100)
        (Some (basename (final_filename fo prepared))) js
  | Raised msg =>
      update_job_status now job_id "error" (Some ("Error: " +:+ msg))
        (Finite 0) None js
  end.

(** Leaving the [with] block after the write of line 79:
    [YoutubeDL.__exit__] returns, or it raises and the [except] clause
    writes 'error' over the record. *)
Definition download_task_exit (now : Q) (job_id : string)
    (raised : option string) (js : gmap string job) : gmap string job :=
  match raised with
  | Some msg =>
      update_job_status now job_id "error" (Some ("Error: " +:+ msg))
        (Finite 0) None js
  | None => js
  end.

(** *** Dispatcher *)

(** The [format_opts] chosen from [type] and [format_id]. *)
Definition choose_format_opts (type format_id : option string) : format_opts :=
  if bool_decide (type = Some "audio") then
    FormatOpts (Some "bestaudio/best") (Some true)
      (Some [VDict [("key", VStr "FFmpegExtractAudio");
                    ("preferredcodec", VStr "mp3");
                    ("preferredquality", VStr "192")]])
  else if truthy format_id then
    FormatOpts (Some (default "" format_id +:+ "+bestaudio/best")) None None
  else
    FormatOpts (Some "bestvideo+bestaudio/best") None None.

(** [start_download]; [fresh] is what [uuid.uuid4()] returns if it is
    called.  The thread is started and left to the scheduler. *)
Definition start_download (now : Q) (fresh : string) (rq : request)
    (st : system) : response * system :=
  if negb (truthy (rq_url rq)) then (Error 400 "URL is required", st)
  else
    let job_id := fresh in
    let js :=
      update_job_status now job_id "starting" (Some "Starting process...")
        (Finite 0) None (jobs st) in
    let fo := choose_format_opts (rq_type rq) (rq_format_id rq) in
    let thread := Worker (default "" (rq_url rq)) fo in
    (JobId 200 job_id,
     System js (files st) (<[job_id := thread]> (workers st))
       ({[job_id]} ∪ issued st) (closing st)).

(** *** Retrieval gateway *)

Definition get_status (job_id : string) (st : system) : response :=
  match jobs st !! job_id with
  | Some j => JobRecord 200 j
  | None => Error 404 "Job not found"
  end.

(** Flask's [send_from_directory(directory, path, as_attachment=True)] for
    a plain file name: the file is sent when it exists, the answer is 404
    when it does not, and a [None] for the name is a [TypeError], a 500. *)
Definition send_from_directory (fs : gset string) (directory : string)
    (path : option string) : response :=
  match path with
  | Some name =>
      if bool_decide (path_join directory name ∈ fs)
      then Attachment 200 (Some directory) (Some name)
      else Error 404 "Not Found"
  | None => Error 500 "Internal Server Error"
  end.

Definition download_file (job_id : string) (st : system) : response :=
  match jobs st !! job_id with
  | Some j =>
      if String.eqb (status j) "completed"
      then send_from_directory (files st) DOWNLOAD_FOLDER (filename j)
      else Error 404 "File not ready"
  | None => Error 404 "File not ready"
  end.

(** *** Cleanup sweeper *)

(** [now - jobs[job_id]['timestamp'] > 3600]. *)
Definition expired (now : Q) (j : job) : bool :=
  negb (Qle_bool (now - timestamp j) 3600).

(** The body of the [for] loop of [cleanup] for one identifier of the
    snapshot; [removable p] tells whether [os.remove(p)] succeeds. *)
Definition cleanup_job (now : Q) (removable : string -> bool)
    (st : system) (job_id : string) : result system :=
  match jobs st !! job_id with
  | None => raise (KeyError job_id)
  | Some j =>
      if expired now j then
        let fs :=
          if truthy (filename j) then
            let file_path := path_join DOWNLOAD_FOLDER (default "" (filename j)) in
            if bool_decide (file_path ∈ files st) then
              if removable file_path then files st ∖ {[file_path]}
              else files st
            else files st
          else files st in
        ok (System (delete job_id (jobs st)) fs (workers st) (issued st)
              (closing st))
      else ok st
  end.

(** [list(jobs.keys())]. *)
Definition snapshot (js : gmap string job) : list string :=
  (map_to_list js).*1.

(** One pass of the [while True] loop, up to the [time.sleep]. *)
Definition cleanup_cycle (now : Q) (removable : string -> bool)
    (st : system) : result system :=
  try_fold (cleanup_job now removable) st (snapshot (jobs st)).

(** The argument of [time.sleep] that ends each pass. *)
Definition cleanup_sleep : Q := 300.

(** [cleanup] run for as many passes as [oracle] has clock readings and
    removal oracles; the second component lists the [time.sleep] calls. *)
Fixpoint cleanup (oracle : list (Q * (string -> bool))) (st : system)
  : result (system * list Q) :=
  match oracle with
  | [] => ok (st, [])
  | (now, removable) :: rest =>
      let* st' := cleanup_cycle now removable st in
      let* r := cleanup rest st' in
      ok (r.1, cleanup_sleep :: r.2)
  end.

(** *** The interleavings of the process *)

(** What can happen next in the process. *)
Inductive action :=
  | Dispatch (now : Q) (fresh : string) (rq : request)
  | Progress (now : Q) (job_id : string) (d : event)
  | Finish (now : Q) (job_id : string) (o : outcome)
  | Sweep (now : Q) (removable : string -> bool)
  | Disk (fs : gset string)
  | Exit (now : Q) (job_id : string) (raised : option string).

(** One atomic step.  [Dispatch] is a call of [start_download] in which
    [uuid4] draws an identifier it has not drawn before.  [Progress],
    [Finish] and [Exit] are steps of the worker thread of [job_id]: a call
    of its hook during [extract_info]; the end of the body of the [with]
    block, which ends the thread when the body raised and otherwise makes
    the write of line 79 and leaves the thread to close the block; and the
    end of [YoutubeDL.__exit__], which ends the thread, after a write of
    the [except] clause when it raised.  [Sweep] is a pass of the sweeper,
    taken as a whole: the writes of other threads in the middle of a pass
    are not modelled.  [Disk] is any change of the files by yt-dlp or the
    operator.  [None]: the step cannot happen. *)
Definition step (st : system) (a : action) : option system :=
  match a with
  | Dispatch now fresh rq =>
      if bool_decide (fresh ∈ issued st) then None
      else Some (start_download now fresh rq st).2
  | Progress now job_id d =>
      match workers st !! job_id with
      | Some _ => Some (with_jobs st (progress_hook now job_id d (jobs st)))
      | None => None
      end
  | Finish now job_id o =>
      match workers st !! job_id with
      | Some w =>
          Some (System (download_task_finish now job_id (w_opts w) o (jobs st))
                  (files st) (delete job_id (workers st)) (issued st)
                  (match o with
                   | Returned _ => {[job_id]} ∪ closing st
                   | Raised _ => closing st
                   end))
      | None => None
      end
  | Sweep now removable =>
      match cleanup_cycle now removable st with
      | inr st' => Some st'
      | inl _ => None
      end
  | Disk fs => Some (System (jobs st) fs (workers st) (issued st) (closing st))
  | Exit now job_id raised =>
      if bool_decide (job_id ∈ closing st) then
        Some (System (download_task_exit now job_id raised (jobs st))
                (files st) (workers st) (issued st)
                (closing st ∖ {[job_id]}))
      else None
  end.

Fixpoint run (st : system) (tr : list action) : option system :=
  match tr with
  | [] => Some st
  | a :: tr' =>
      match step st a with
      | Some st' => run st' tr'
      | None => None
      end
  end.

(** *** Format listing *)

(** A format dict of yt-dlp's [info['formats']]; [None] is a missing key. *)
Record fmt := Fmt {
  f_format_id : option string;
  f_ext : option string;
  f_vcodec : option string;
  f_acodec : option string;
  f_height : option Z;
  f_format_note : option string;
  f_filesize_approx : option Z;
  f_filesize : option Z
}.

(** What [extract_info(url, download=False)] returns. *)
Record info := Info {
  i_title : option string;
  i_thumbnail : option string;
  i_formats : option (list fmt)
}.

(** The dicts appended to [formats]. *)
Record candidate := Candidate {
  c_id : option string;
  c_ext : option string;
  c_quality : string;
  c_note : string;
  c_filesize : option Z;
  c_has_audio : bool
}.

(** The dicts of the response. *)
Record listed := Listed {
  l_id : option string;
  l_ext : option string;
  l_quality : string;
  l_note : string;
  l_filesize : option Z;
  l_needs_merge : bool
}.

Inductive formats_response :=
  | Listing (code : Z) (title thumbnail : option string) (formats : list listed)
  | BadRequest (code : Z) (msg : string)
  | ServerError (code : Z) (e : exn).

Definition resolutions : list Z := [360; 480; 720; 1080; 1440; 2160].

(** [a or b] on optional integers: [None] and [0] are falsy. *)
Definition py_or (a b : option Z) : option Z :=
  match a with
  | Some n => if bool_decide (n = 0) then b else a
  | None => b
  end.

(** [f.get('acodec') != 'none']. *)
Definition has_audio (f : fmt) : bool :=
  negb (bool_decide (f_acodec f = Some "none")).

(** The body of the first loop: the dict appended for [f], if any. *)
Definition candidate_of (f : fmt) : option candidate :=
  if bool_decide (f_vcodec f = Some "none") then None
  else
    match f_height f with
    | Some res =>
        if (negb (bool_decide (res = 0)) && bool_decide (res ∈ resolutions))%bool
        then Some (Candidate (f_format_id f) (f_ext f) (pretty res +:+ "p")
                     (default "" (f_format_note f))
                     (py_or (f_filesize_approx f) (f_filesize f))
                     (has_audio f))
        else None
    | None => None
    end.

(** The sort key [int(x['quality'].replace('p', ''))]. *)
Definition quality_key (c : candidate) : result Z :=
  let digits := str_remove "p" (c_quality c) in
  match py_int digits with
  | Some n => ok n
  | None => raise (ValueError digits)
  end.

(** Stable insertion in descending key order: [x] comes from further left
    than every element of [l], so it goes before its equals. *)
Fixpoint insert_desc (x : Z * candidate) (l : list (Z * candidate))
  : list (Z * candidate) :=
  match l with
  | [] => [x]
  | y :: l' => if bool_decide (x.1 < y.1) then y :: insert_desc x l' else x :: l
  end.

Fixpoint sort_desc (l : list (Z * candidate)) : list (Z * candidate) :=
  match l with
  | [] => []
  | x :: l' => insert_desc x (sort_desc l')
  end.

(** [formats.sort(key=..., reverse=True)]: the keys are computed first,
    then the list is sorted stably. *)
Definition sort_by_quality (l : list candidate) : result (list candidate) :=
  let* keys := try_map quality_key l in
  ok (sort_desc (zip keys l)).*2.

(** The body of the deduplication loop on [(unique_formats, seen_quality)]. *)
Definition dedup_step (st : list candidate * gmap string candidate)
    (f : candidate) : result (list candidate * gmap string candidate) :=
  let '(unique_formats, seen_quality) := st in
  let q := c_quality f in
  match seen_quality !! q with
  | None => ok ((unique_formats ++ [f])%list, <[q := f]> seen_quality)
  | Some g =>
      if (c_has_audio f && negb (c_has_audio g))%bool then
        match list_find (fun x => c_quality x = q) unique_formats with
        | Some (idx, _) =>
            ok (<[idx := f]> unique_formats, <[q := f]> seen_quality)
        | None => raise StopIteration
        end
      else ok st
  end.

Definition deduplicate (l : list candidate) : result (list candidate) :=
  let* st := try_fold dedup_step ([], ∅) l in ok st.1.

(** An entry of the ['formats'] list of the response. *)
Definition render (f : candidate) : listed :=
  Listed (c_id f)
    (if negb (c_has_audio f) then Some "mp4" else c_ext f)
    (c_quality f)
    (if c_has_audio f then "Video + Audio" else "HD (Video Only)")
    (c_filesize f)
    (negb (c_has_audio f)).

(** The [ydl_opts] dict literal of [get_formats]. *)
Definition formats_ydl_opts (fs : gset string) : list (string * pyval) :=
  [ ("extractor_args", extractor_args);
    ("http_headers", VDict [("User-Agent", VStr user_agent)]);
    ("cookiefile", cookiefile fs) ].

(** The [with] block of [get_formats] once [extract_info] has returned. *)
Definition list_formats (i : info) : result (list listed) :=
  let formats := omap candidate_of (default [] (i_formats i)) in
  let* formats := sort_by_quality formats in
  let* unique_formats := deduplicate formats in
  ok (render <$> unique_formats).

(** [get_formats]; [extract_info opts url] is yt-dlp's
    [YoutubeDL(opts).extract_info(url, download=False)]. *)
Definition get_formats
    (extract_info : list (string * pyval) -> string -> result info)
    (fs : gset string) (url : option string) : formats_response :=
  if negb (truthy url) then BadRequest 400 "URL is required"
  else
    let ydl_opts := formats_ydl_opts fs in
    match
      let* i := extract_info ydl_opts (default "" url) in
      let* l := list_formats i in
      ok (i, l)
    with
    | inr (i, l) => Listing 200 (i_title i) (i_thumbnail i) l
    | inl e => ServerError 500 e
    end.

(** What yt-dlp promises about the name it prepares from the ['outtmpl'] of
    [download_ydl_opts]: the template filled in with a title and an
    extension, the extension holding no path separator. *)
Fixpoint has_char (c : ascii) (s : string) : bool :=
  match s with
  | String a s' => (Ascii.eqb a c || has_char c s')%bool
  | EmptyString => false
  end.

Definition fills_outtmpl (job_id prepared : string) : Prop :=
  exists title ext,
    has_char slash ext = false /\
    prepared =
      path_join DOWNLOAD_FOLDER (job_id +:+ "_" +:+ title +:+ "." +:+ ext).

(** The collaborator keeps that promise all along a trace. *)
Definition prepared_names_ok (tr : list action) : Prop :=
  forall now job_id prepared,
    Finish now job_id (Returned prepared) ∈ tr -> fills_outtmpl job_id prepared.

(** The percentages the collaborator reports along a trace are in [0,100]
    whenever they parse. *)
Definition percentages_in_range (tr : list action) : Prop :=
  forall now job_id d x,
    Progress now job_id d ∈ tr ->
    ev_status d = "downloading" ->
    py_float (percent_text d) = Some x ->
    in_percent_range x = true.

(** A format of yt-dlp is a video format of height [h] that the listing
    keeps. *)
Definition video_at (f : fmt) (h : Z) : Prop :=
  f_vcodec f <> Some "none" /\ f_height f = Some h /\ h ∈ resolutions.

(** ** Predicates and bookkeeping of the specification *)

(** The file that the sweep at [now] tries to delete for job [j]. *)
Definition doomed (now : Q) (removable : string -> bool) (j : job)
    (p : string) : Prop :=
  removable p = true /\ expired now j = true /\ truthy (filename j) = true /\
  p = path_join DOWNLOAD_FOLDER (default "" (filename j)).

(** The completed and the failed state. *)
Definition terminal (j : job) : Prop :=
  status j = "completed" \/ status j = "error".

(** The record an action writes, and under which identifier. *)
Definition written (st : system) (a : action) : option (string * job) :=
  match a with
  | Dispatch now fresh rq =>
      if truthy (rq_url rq)
      then Some (fresh,
                 Job "starting" (Some "Starting process...") (Finite 0) None now)
      else None
  | Progress now job_id d =>
      if String.eqb (ev_status d) "downloading" then
        Some (job_id,
              Job "downloading"
                (Some ("Downloading... " +:+ percent_text d +:+ "%"))
                (float_or_zero (percent_text d)) None now)
      else if String.eqb (ev_status d) "finished" then
        Some (job_id,
              Job "processing" (Some "Processing with ffmpeg...") (Finite 100)
                None now)
      else None
  | Finish now job_id o =>
      match workers st !! job_id, o with
      | Some w, Returned prepared =>
          Some (job_id,
                Job "completed" (Some "Finished!") (Finite 100)
                  (Some (basename (final_filename (w_opts w) prepared))) now)
      | Some w, Raised msg =>
          Some (job_id,
                Job "error" (Some ("Error: " +:+ msg)) (Finite 0) None now)
      | None, _ => None
      end
  | Exit now job_id (Some msg) =>
      if bool_decide (job_id ∈ closing st)
      then Some (job_id,
                 Job "error" (Some ("Error: " +:+ msg)) (Finite 0) None now)
      else None
  | Exit _ _ None | Sweep _ _ | Disk _ => None
  end.

(** The identifiers whose record is written along a run, in order. *)
Fixpoint written_ids (st : system) (tr : list action) : list string :=
  match tr with
  | [] => []
  | a :: tr' =>
      match step st a with
      | Some st' =>
          match written st a with
          | Some (k, _) => k :: written_ids st' tr'
          | None => written_ids st' tr'
          end
      | None => []
      end
  end.

(** What ties the store to the threads: records and threads exist only
    under identifiers that were drawn, a record in a terminal state has no
    worker left before its write of line 79, a thread is either before
    that write or closing its block, and a failed job has no thread. *)
Definition consistent (st : system) : Prop :=
  (forall k, is_Some (jobs st !! k) -> k ∈ issued st) /\
  (forall k, is_Some (workers st !! k) -> k ∈ issued st) /\
  (forall k j, jobs st !! k = Some j -> terminal j -> workers st !! k = None)
  /\
  (forall k, k ∈ closing st -> k ∈ issued st /\ workers st !! k = None) /\
  (forall k j, jobs st !! k = Some j -> status j = "error" -> k ∉ closing st).

(** The resolution a candidate was filed under, read back from its
    ['quality'] as the sort key does. *)
Definition res_of (c : candidate) : Z :=
  default 0 (py_int (str_remove "p" (c_quality c))).

(** Candidates as the first loop builds them. *)
Definition filed (c : candidate) : Prop :=
  exists h, h ∈ resolutions /\ c_quality c = pretty h +:+ "p".

(** Descending order of the keys. *)
Definition key_ge (a b : Z * candidate) : Prop := b.1 <= a.1.

(** Descending order of the resolutions, with and without ties. *)
Definition res_ge (a b : candidate) : Prop := res_of b <= res_of a.

(** The loop invariant once the prefix [seen] of the sorted list has been
    processed: [seen_quality] indexes [unique_formats] by quality, the
    resolutions of [unique_formats] strictly descend, its entries come from
    [seen], and every candidate of [seen] is represented at its quality by
    an entry that has audio if the candidate has. *)
Definition dedup_inv (seen unique_formats : list candidate)
    (seen_quality : gmap string candidate) : Prop :=
  (forall q g, seen_quality !! q = Some g ->
     g ∈ unique_formats /\ c_quality g = q) /\
  (forall c, c ∈ unique_formats -> is_Some (seen_quality !! c_quality c)) /\
  StronglySorted Z.gt (res_of <$> unique_formats) /\
  (forall c, c ∈ unique_formats -> c ∈ seen) /\
  (forall p, p ∈ seen ->
     exists c, c ∈ unique_formats /\ c_quality c = c_quality p /\
               (c_has_audio p = true -> c_has_audio c = true)).

(** What C6 asks of the listing [out] computed from yt-dlp's [formats]:
    [hs] are the resolutions of its entries in order. *)
Definition listing_ok (formats : list fmt) (out : list listed) : Prop :=
  exists hs : list Z,
    l_quality <$> out = (fun h => pretty h +:+ "p") <$> hs /\
    Forall (fun h => h ∈ resolutions) hs /\
    StronglySorted Z.gt hs /\
    (forall h, h ∈ hs <-> exists f, f ∈ formats /\ video_at f h) /\
    (forall e, e ∈ out ->
       exists f h, f ∈ formats /\ video_at f h /\
                   l_quality e = pretty h +:+ "p" /\
                   l_id e = f_format_id f /\
                   l_needs_merge e = negb (has_audio f)) /\
    (forall f h e,
       f ∈ formats -> video_at f h -> has_audio f = true ->
       e ∈ out -> l_quality e = pretty h +:+ "p" ->
       l_needs_merge e = false).

(** ** Sample inputs

    Concrete requests, traces, stores and format lists on which the
    statements below are evaluated; the working directory is [/srv]. *)

Definition sample_request : request :=
  Request (Some "https://example/video") (Some "video") (Some "137").

Definition sample_audio_request : request :=
  Request (Some "https://example/video") (Some "audio") None.

(** A video job from dispatch to completion. *)
Definition sample_trace : list action :=
  [ Dispatch 10 "job-a" sample_request;
    Progress 11 "job-a" (Event "downloading" (Some " 45.3%"));
    Progress 12 "job-a" (Event "finished" None);
    Finish 13 "job-a" (Returned "/srv/downloads/job-a_Clip.mp4") ].

(** What happens afterwards: a second job that fails, and a sweep. *)
Definition sample_later : list action :=
  [ Dispatch 20 "job-b" sample_audio_request;
    Progress 21 "job-b" (Event "downloading" (Some "100%"));
    Sweep 22 (fun _ => true);
    Finish 23 "job-b" (Raised "network unreachable") ].

(** A collaborator that reports more than 100 percent. *)
Definition sample_overshoot : list action :=
  [ Dispatch 10 "job-a" sample_request;
    Progress 11 "job-a" (Event "downloading" (Some "150%")) ].

(** A store with a record older than an hour at time 4000 and a recent
    one, and the file of the old one on disk. *)
Definition sample_store : system :=
  System
    (<["old" := Job "completed" (Some "Finished!") (Finite 100)
                  (Some "old_Clip.mp4") 0]>
       (<["new" := Job "downloading" (Some "Downloading... 10%") (Finite 10)
                     None 3900]> ∅))
    {["/srv/downloads/old_Clip.mp4"; "/srv/downloads/new_Clip.mp4.part"]}
    (<["new" := Worker "https://example/video"
                  (FormatOpts (Some "bestvideo+bestaudio/best") None None)]> ∅)
    {["old"; "new"]} ∅.

(** Formats at 720p without and with audio, an audio-only format, a 1080p
    video-only format and a 144p format. *)
Definition sample_formats : list fmt :=
  [ Fmt (Some "247") (Some "webm") (Some "vp9") (Some "none") (Some 720)
      None None (Some 5000);
    Fmt (Some "22") (Some "mp4") (Some "avc1") (Some "mp4a") (Some 720)
      (Some "720p") (Some 0) None;
    Fmt (Some "140") (Some "m4a") (Some "none") (Some "mp4a") None
      None None None;
    Fmt (Some "248") (Some "webm") (Some "vp9") (Some "none") (Some 1080)
      None None None;
    Fmt (Some "160") (Some "mp4") (Some "avc1") (Some "none") (Some 144)
      None None None ].

Definition sample_info : info :=
  Info (Some "Clip") None (Some sample_formats).

Definition sample_extract_info (opts : list (string * pyval)) (url : string)
  : result info :=
  ok sample_info.

(** ** More bookkeeping of the specification *)

(** The job an action of the dispatcher or of a worker is about. *)
Definition target (a : action) : option string :=
  match a with
  | Dispatch _ fresh _ => Some fresh
  | Progress _ job_id _ | Finish _ job_id _ | Exit _ job_id _ => Some job_id
  | Sweep _ _ | Disk _ => None
  end.

(** The identifiers handed out along a trace: those of the calls of
    [start_download] that got past the url check. *)
Definition dispatched_ids (tr : list action) : list string :=
  omap (fun a =>
          match a with
          | Dispatch _ fresh rq =>
              if truthy (rq_url rq) then Some fresh else None
          | _ => None
          end) tr.

(** The candidates of a quality, in the order of the list. *)
Definition at_quality (q : string) (l : list candidate) : list candidate :=
  filter (fun c => c_quality c = q) l.

(** The first candidate with audio, or else the first candidate. *)
Definition preferred (l : list candidate) : option candidate :=
  match filter (fun c => c_has_audio c = true) l with
  | c :: _ => Some c
  | [] => head l
  end.

(** Every entry kept is the preferred candidate of its quality among the
    candidates seen so far. *)
Definition picks (seen U : list candidate) : Prop :=
  forall c, c ∈ U -> preferred (at_quality (c_quality c) seen) = Some c.

(** The first job goes through, then a second one is dispatched. *)
Definition sample_two_jobs : list action :=
  sample_trace ++ [ Dispatch 20 "job-b" sample_audio_request ].

(** What follows [sample_trace] when the sweeper comes back after more
    than an hour. *)
Definition sample_next_day : list action :=
  [ Dispatch 20 "job-b" sample_audio_request;
    Sweep 4000 (fun _ => true);
    Finish 4100 "job-b" (Raised "network unreachable") ].

(** [sample_trace] with the thread of "job-a" leaving its [with] block
    quietly. *)
Definition sample_ended : list action :=
  sample_trace ++ [ Exit 14 "job-a" None ].


(** [sample_trace] run beside a cookie file. *)
Definition sample_cookies : list action :=
  Disk {[ "cookies.txt" ]} :: sample_trace.

(** The thread of "job-a" leaves its [with] block with an exception, as
    when [YoutubeDL.__exit__] cannot save the cookies back to a read-only
    [cookies.txt]. *)
Definition sample_exit_raises : action :=
  Exit 14 "job-a" (Some "[Errno 13] Permission denied: 'cookies.txt'").

(** ** The progress reporter *)

(** C4: a 'downloading' event writes status 'downloading', the message
    "Downloading... {p}%" and the progress [float(p)], or 0 when [p] does
    not parse, [p] being the percentage string without its '%'; a 'finished'
    event writes 'processing', "Processing with ffmpeg..." and 100; any
    other event leaves the job store as it is. *)
Theorem progress_hook_writes (now : Q) (job_id : string) (d : event)
    (js : gmap string job) :
  (ev_status d = "downloading" ->
   progress_hook now job_id d js =
     <[job_id := Job "downloading"
                   (Some ("Downloading... " +:+ percent_text d +:+ "%"))
                   (default (Finite 0) (py_float (percent_text d)))
                   None now]> js) /\
  (ev_status d = "finished" ->
   progress_hook now job_id d js =
     <[job_id := Job "processing" (Some "Processing with ffmpeg...")
                   (Finite 100) None now]> js) /\
  (ev_status d <> "downloading" -> ev_status d <> "finished" ->
   progress_hook now job_id d js = js).
Proof.
  unfold progress_hook, update_job_status, float_or_zero.
  repeat split.
  - intros ->. simpl. by destruct (py_float _).
  - intros ->. reflexivity.
  - intros Hd Hf.
    apply String.eqb_neq in Hd, Hf. by rewrite Hd, Hf.
Qed.

(** C10: a 'downloading' event without a percentage field is handled like
    one reporting '0%': progress 0 and the message "Downloading... 0%". *)
Theorem progress_hook_without_percent (now : Q) (job_id : string)
    (js : gmap string job) :
  py_float "0" = Some (Finite 0) ->
  progress_hook now job_id (Event "downloading" None) js =
    <[job_id := Job "downloading" (Some "Downloading... 0%") (Finite 0)
                  None now]> js.
Proof.
  intros H0. unfold progress_hook, float_or_zero, percent_text. simpl.
  by rewrite H0.
Qed.

(** ** The dispatcher *)

(** C3: without a url (missing or empty) [start_download] answers 400 and
    changes nothing: no identifier is drawn, no record written, no thread
    started.  With a url it answers 200 with the identifier drawn, having
    written the 'starting' record and started the worker, which has not run
    yet. *)
Theorem start_download_dispatch (now : Q) (fresh : string) (rq : request)
    (st : system) :
  (truthy (rq_url rq) = false ->
   start_download now fresh rq st = (Error 400 "URL is required", st)) /\
  (forall url,
   rq_url rq = Some url -> url <> "" ->
   let st' := (start_download now fresh rq st).2 in
   (start_download now fresh rq st).1 = JobId 200 fresh /\
   jobs st' =
     <[fresh := Job "starting" (Some "Starting process...") (Finite 0) None
                  now]> (jobs st) /\
   workers st' =
     <[fresh := Worker url (choose_format_opts (rq_type rq) (rq_format_id rq))]>
       (workers st) /\
   issued st' = {[fresh]} ∪ issued st /\
   files st' = files st /\
   get_status fresh st' =
     JobRecord 200
       (Job "starting" (Some "Starting process...") (Finite 0) None now)).
Proof.
  unfold start_download. split.
  - intros ->. reflexivity.
  - intros url -> Hne.
    destruct url as [|a url]; [done|]. simpl.
    repeat split.
    unfold get_status, update_job_status. simpl.
    by rewrite lookup_insert_eq.
Qed.

(** ** The collaborator configuration *)

(** C8, as the code has it: both option dicts always carry the key
    'cookiefile'; its value is 'cookies.txt' exactly when that file exists
    and [None] otherwise. *)
Theorem cookiefile_option (fs : gset string) (job_id : string)
    (fo : format_opts) :
  dict_get "cookiefile" (download_ydl_opts fs job_id fo) =
    Some (if bool_decide ("cookies.txt" ∈ fs) then VStr "cookies.txt" else VNone)
  /\
  dict_get "cookiefile" (formats_ydl_opts fs) =
    Some (if bool_decide ("cookies.txt" ∈ fs) then VStr "cookies.txt" else VNone).
Proof. split; reflexivity. Qed.

(** ** Facts about the string and path builtins *)

Lemma rfind_from_app (c : ascii) (x t : string) (i last : Z) :
  rfind_from c i (x +:+ t) last =
  rfind_from c (i + Z.of_nat (String.length x)) t (rfind_from c i x last).
Proof.
  revert i last. induction x as [|a x IH]; intros i last; simpl.
  - f_equal. lia.
  - rewrite IH. f_equal. lia.
Qed.

Lemma rfind_from_absent (c : ascii) (t : string) (i last : Z) :
  has_char c t = false -> rfind_from c i t last = last.
Proof.
  revert i. induction t as [|a t IH]; intros i; simpl; [done|].
  intros [Ha Ht]%orb_false_elim. rewrite Ha. by apply IH.
Qed.

Lemma rfind_from_lt (c : ascii) (x : string) (i last : Z) :
  last < i -> rfind_from c i x last < i + Z.of_nat (String.length x).
Proof.
  revert i last. induction x as [|a x IH]; intros i last Hlt; simpl.
  - lia.
  - eapply Z.lt_le_trans; [apply IH|lia]. destruct (Ascii.eqb a c); lia.
Qed.

Lemma str_drop_length (n : nat) (s : string) :
  String.length (str_drop n s) = (String.length s - n)%nat.
Proof.
  revert s. induction n as [|n IH]; intros [|a s]; simpl; rewrite ?IH; lia.
Qed.

Lemma length_append (x t : string) :
  String.length (x +:+ t) = (String.length x + String.length t)%nat.
Proof. induction x as [|a x IH]; simpl; [done|]. by rewrite IH. Qed.

(** A path that ends in a non-empty suffix free of separators has a
    non-empty base name. *)
Lemma basename_suffix_nonempty (x t : string) :
  has_char slash t = false -> t <> "" -> basename (x +:+ t) <> "".
Proof.
  intros Hno Hne Hempty.
  apply (f_equal String.length) in Hempty.
  unfold basename, rfind in Hempty.
  rewrite str_drop_length, length_append, rfind_from_app in Hempty.
  rewrite (rfind_from_absent _ _ _ _ Hno) in Hempty.
  pose proof (rfind_from_lt slash x 0 (-1)) as Hlt.
  destruct t as [|a t]; [done|]. simpl in Hempty. lia.
Qed.

Lemma append_assoc (a b c : string) : (a +:+ b) +:+ c = a +:+ b +:+ c.
Proof.
  induction a as [|x a IH]; [done|].
  change (String x ((a +:+ b) +:+ c) = String x (a +:+ b +:+ c)).
  by rewrite IH.
Qed.

Lemma path_join_suffix (a b : string) : exists pre, path_join a b = pre +:+ b.
Proof.
  unfold path_join.
  destruct (starts_with_slash b); [by exists ""|].
  destruct (_ || _)%bool; [by exists a|].
  exists (a +:+ "/"). by rewrite append_assoc.
Qed.

(** The name recorded on success is never empty: an audio job's name ends
    in ".mp3", any other is the filled-in template. *)
Lemma recorded_name_nonempty (job_id : string) (fo : format_opts)
    (prepared : string) :
  fills_outtmpl job_id prepared ->
  basename (final_filename fo prepared) <> "".
Proof.
  intros (title & ext & Hext & ->). unfold final_filename.
  destruct (default false (fo_is_audio fo)).
  - by apply basename_suffix_nonempty.
  - destruct (path_join_suffix DOWNLOAD_FOLDER
                (job_id +:+ "_" +:+ title +:+ "." +:+ ext)) as [pre ->].
    rewrite <- !append_assoc.
    rewrite (append_assoc _ "." ext).
    apply basename_suffix_nonempty; [|done].
    simpl. exact Hext.
Qed.

(** ** The cleanup sweeper *)

Lemma cleanup_job_run (now : Q) (removable : string -> bool) (st : system)
    (k : string) (j : job) :
  jobs st !! k = Some j ->
  exists st1,
    cleanup_job now removable st k = inr st1 /\
    workers st1 = workers st /\ issued st1 = issued st /\
    jobs st1 = (if expired now j then delete k (jobs st) else jobs st) /\
    (forall p, p ∈ files st1 <-> p ∈ files st /\ ~ doomed now removable j p).
Proof.
  clear py_float.
  intros Hk. unfold cleanup_job, doomed. rewrite Hk.
  destruct (expired now j) eqn:He.
  - eexists. split; [reflexivity|]. simpl. do 3 (split; [done|]).
    intros p.
    destruct (truthy (filename j)); [|intuition congruence].
    case_bool_decide as Hin.
    + destruct (removable (path_join _ _)) eqn:Hr.
      * rewrite elem_of_difference, elem_of_singleton.
        split; (intros [Hp Hnot]; split; [done|]).
        -- intros (_ & _ & _ & ->). by apply Hnot.
        -- intros ->. apply Hnot. by rewrite Hr.
      * intuition congruence.
    + intuition congruence.
  - exists st. do 4 (split; [done|]). intuition congruence.
Qed.

(** The loop of a sweep over any duplicate-free list of present
    identifiers: no [KeyError], and what it leaves behind. *)
Lemma cleanup_fold (now : Q) (removable : string -> bool) (l : list string) :
  forall st : system,
    NoDup l ->
    (forall k, k ∈ l -> is_Some (jobs st !! k)) ->
    exists st',
      try_fold (cleanup_job now removable) st l = inr st' /\
      workers st' = workers st /\ issued st' = issued st /\
      (forall k,
         jobs st' !! k =
           match jobs st !! k with
           | Some j =>
               if (bool_decide (k ∈ l) && expired now j)%bool then None
               else Some j
           | None => None
           end) /\
      (forall p,
         p ∈ files st' <->
         p ∈ files st /\
         ~ exists k j, k ∈ l /\ jobs st !! k = Some j /\
                       doomed now removable j p).
Proof.
  clear py_float.
  induction l as [|k0 l IH]; intros st Hnd Hin.
  - exists st. simpl. do 3 (split; [done|]). split.
    + intros k. by destruct (jobs st !! k).
    + intros p. split; [|by intros [? _]].
      intros Hp. split; [done|].
      intros (k & j & Hk & _). by apply not_elem_of_nil in Hk.
  - apply NoDup_cons in Hnd as [Hk0 Hnd].
    destruct (Hin k0) as [j0 Hj0]; [by left|].
    destruct (cleanup_job_run now removable st k0 j0 Hj0)
      as (st1 & Hrun & Hw1 & Hi1 & Hjobs1 & Hfiles1).
    assert (Hsame : forall k, k ∈ l -> jobs st1 !! k = jobs st !! k).
    { intros k Hk. rewrite Hjobs1. destruct (expired now j0); [|done].
      apply lookup_delete_ne. by intros ->. }
    destruct (IH st1 Hnd) as (st' & Hfold & Hw & Hi & Hjobs & Hfiles).
    { intros k Hk. rewrite Hsame by done. apply Hin. by right. }
    exists st'. simpl. rewrite Hrun. simpl.
    split; [done|]. split; [congruence|]. split; [congruence|]. split.
    + intros k. rewrite Hjobs, Hjobs1.
      destruct (decide (k = k0)) as [->|Hne].
      * rewrite Hj0, (bool_decide_eq_true_2 (k0 ∈ k0 :: l)) by (by left).
        rewrite (bool_decide_eq_false_2 (k0 ∈ l)) by done. simpl.
        destruct (expired now j0); [by rewrite lookup_delete_eq|].
        by rewrite Hj0.
      * assert (Hdec : bool_decide (k ∈ k0 :: l) = bool_decide (k ∈ l)).
        { apply bool_decide_ext. rewrite elem_of_cons. naive_solver. }
        rewrite Hdec.
        destruct (expired now j0); [by rewrite lookup_delete_ne|done].
    + intros p. rewrite Hfiles, Hfiles1. split.
      * intros [[Hp Hnot0] Hnot]. split; [done|].
        intros (k & j & [->|Hk]%elem_of_cons & Hj & Hd).
        -- rewrite Hj0 in Hj. by simplify_eq.
        -- apply Hnot. exists k, j. by rewrite Hsame.
      * intros [Hp Hnot]. split; [split; [done|]|].
        -- intros Hd. apply Hnot. exists k0, j0. split; [by left|done].
        -- intros (k & j & Hk & Hj & Hd). apply Hnot. exists k, j.
           split; [by right|]. by rewrite <- Hsame.
Qed.

Lemma snapshot_NoDup (js : gmap string job) : NoDup (snapshot js).
Proof. apply NoDup_fst_map_to_list. Qed.

Lemma elem_of_snapshot (js : gmap string job) (k : string) :
  k ∈ snapshot js <-> is_Some (js !! k).
Proof.
  unfold snapshot. rewrite list_elem_of_fmap. split.
  - intros ([k' j] & -> & Hkj%elem_of_map_to_list). by exists j.
  - intros [j Hj]. exists (k, j). split; [done|by apply elem_of_map_to_list].
Qed.

(** A pass of the sweeper never raises; it only removes records. *)
Lemma cleanup_cycle_shrinks (now : Q) (removable : string -> bool)
    (st : system) :
  exists st',
    cleanup_cycle now removable st = inr st' /\
    workers st' = workers st /\ issued st' = issued st /\
    forall k, jobs st' !! k = jobs st !! k \/ jobs st' !! k = None.
Proof.
  destruct (cleanup_fold now removable (snapshot (jobs st)) st)
    as (st' & Hrun & Hw & Hi & Hjobs & _).
  { apply snapshot_NoDup. }
  { intros k. by rewrite elem_of_snapshot. }
  exists st'. repeat split; try done.
  intros k. rewrite Hjobs. destruct (jobs st !! k); [|by left].
  destruct (_ && _)%bool; [by right|by left].
Qed.

(** The sweeper never stops on an exception, and sleeps 300 seconds after
    each pass. *)
Lemma cleanup_sleeps (oracle : list (Q * (string -> bool))) :
  forall st : system, exists st'',
    cleanup oracle st = inr (st'', replicate (List.length oracle) 300%Q).
Proof.
  induction oracle as [|[now removable] oracle IH]; intros st; simpl.
  - by exists st.
  - destruct (cleanup_cycle_shrinks now removable st) as (st1 & Hst1 & _).
    destruct (IH st1) as [st2 Hst2].
    exists st2. by rewrite Hst1; simpl; rewrite Hst2.
Qed.

(** C7: a pass of the sweeper walks the snapshot of the identifiers without
    raising.  Every record older than 3600 seconds at [now] is removed, and
    its file, when a name is recorded and the file exists, is deleted unless
    [os.remove] fails; the other records, the workers and the remaining
    files are left alone.  Every pass is followed by a sleep of 300
    seconds. *)
Theorem cleanup_cycle_sweeps (now : Q) (removable : string -> bool)
    (st : system) :
  exists st',
    cleanup_cycle now removable st = inr st' /\
    (forall k j, jobs st !! k = Some j ->
       (3600 < now - timestamp j)%Q -> jobs st' !! k = None) /\
    (forall k j, jobs st !! k = Some j ->
       (now - timestamp j <= 3600)%Q -> jobs st' !! k = Some j) /\
    (forall k, jobs st !! k = None -> jobs st' !! k = None) /\
    (forall p,
       p ∈ files st' <->
       p ∈ files st /\
       ~ exists k j name,
           jobs st !! k = Some j /\ (3600 < now - timestamp j)%Q /\
           filename j = Some name /\ name <> "" /\
           p = path_join DOWNLOAD_FOLDER name /\ removable p = true) /\
    workers st' = workers st /\ issued st' = issued st /\
    (forall oracle, exists st'',
       cleanup oracle st = inr (st'', replicate (List.length oracle) 300%Q)).
Proof.
  assert (Hexp : forall j,
            expired now j = true <-> (3600 < now - timestamp j)%Q).
  { intros j. unfold expired. rewrite negb_true_iff, <- not_true_iff_false.
    rewrite Qle_bool_iff. split; [apply Qnot_le_lt|apply Qlt_not_le]. }
  destruct (cleanup_fold now removable (snapshot (jobs st)) st)
    as (st' & Hrun & Hw & Hi & Hjobs & Hfiles).
  { apply snapshot_NoDup. }
  { intros k. by rewrite elem_of_snapshot. }
  exists st'. split; [done|].
  split; [|split; [|split; [|split; [|split; [done|split; [done|]]]]]].
  - intros k j Hk Hold. rewrite Hjobs, Hk.
    rewrite bool_decide_eq_true_2 by (apply elem_of_snapshot; by exists j).
    apply Hexp in Hold. by rewrite Hold.
  - intros k j Hk Hyoung. rewrite Hjobs, Hk.
    destruct (expired now j) eqn:He; [|by rewrite andb_false_r].
    apply Hexp, Qlt_not_le in He. done.
  - intros k Hk. by rewrite Hjobs, Hk.
  - intros p. rewrite Hfiles. apply and_iff_compat_l, not_iff_compat.
    unfold doomed. split.
    + intros (k & j & _ & Hk & Hr & He & Ht & ->).
      destruct (filename j) as [[|a name]|] eqn:Hname; try done.
      exists k, j, (String a name). by rewrite <- Hexp.
    + intros (k & j & name & Hk & He & Hname & Hne & -> & Hr).
      exists k, j. rewrite Hname. simpl.
      split; [apply elem_of_snapshot; by exists j|].
      rewrite Hexp. by destruct name.
  - intros oracle. apply cleanup_sleeps.
Qed.

(** ** The job store along the interleavings *)

(** After a step, a record is the one the action wrote, or the one that was
    there, or gone. *)
Lemma step_jobs (st st' : system) (a : action) (k : string) :
  step st a = Some st' ->
  (exists j, written st a = Some (k, j) /\ jobs st' !! k = Some j) \/
  ((forall j, written st a <> Some (k, j)) /\
   (jobs st' !! k = jobs st !! k \/ jobs st' !! k = None)).
Proof.
  destruct a
    as [now fresh rq|now job_id d|now job_id o|now removable|fs
       |now job_id raised];
    simpl.
  - case_bool_decide; [done|]. intros [= <-].
    unfold start_download. destruct (truthy (rq_url rq)); simpl.
    + destruct (decide (k = fresh)) as [->|Hne].
      * left. eexists. split; [reflexivity|].
        apply lookup_insert_eq.
      * right. split; [congruence|]. left.
        unfold update_job_status. by rewrite lookup_insert_ne.
    + right. split; [done|by left].
  - destruct (workers st !! job_id); [|done]. intros [= <-].
    unfold progress_hook, update_job_status. simpl.
    destruct (String.eqb (ev_status d) "downloading");
      [|destruct (String.eqb (ev_status d) "finished")].
    1,2: destruct (decide (k = job_id)) as [->|Hne];
      [left; eexists; split; [reflexivity|apply lookup_insert_eq]
      |right; split; [congruence|left; by rewrite lookup_insert_ne]].
    right. split; [done|by left].
  - destruct (workers st !! job_id) as [w|]; [|done]. intros [= <-].
    unfold download_task_finish, update_job_status. simpl.
    destruct o as [prepared|msg].
    1,2: destruct (decide (k = job_id)) as [->|Hne];
      [left; eexists; split; [reflexivity|apply lookup_insert_eq]
      |right; split; [congruence|left; by rewrite lookup_insert_ne]].
  - destruct (cleanup_cycle_shrinks now removable st)
      as (st1 & -> & _ & _ & Hjobs).
    intros [= <-]. right. split; [done|apply Hjobs].
  - intros [= <-]. right. split; [done|by left].
  - case_bool_decide; [|done]. intros [= <-].
    unfold download_task_exit, update_job_status. simpl.
    destruct raised as [msg|]; [|right; split; [done|by left]].
    destruct (decide (k = job_id)) as [->|Hne];
      [left; eexists; split; [reflexivity|apply lookup_insert_eq]
      |right; split; [congruence|left; by rewrite lookup_insert_ne]].
Qed.

(** The worker threads and the identifiers drawn after a step. *)
Lemma step_workers (st st' : system) (a : action) (k : string) :
  step st a = Some st' ->
  issued st ⊆ issued st' /\
  match a with
  | Dispatch _ fresh rq =>
      (fresh ∉ issued st) /\
      (workers st' !! k = workers st !! k \/
       k = fresh /\ k ∈ issued st' /\ is_Some (workers st' !! k))
  | Progress _ job_id _ =>
      is_Some (workers st !! job_id) /\ workers st' = workers st
  | Finish _ job_id _ =>
      is_Some (workers st !! job_id) /\
      workers st' = delete job_id (workers st)
  | Sweep _ _ | Disk _ | Exit _ _ _ => workers st' = workers st
  end.
Proof.
  destruct a
    as [now fresh rq|now job_id d|now job_id o|now removable|fs
       |now job_id raised];
    simpl.
  - case_bool_decide as Hfresh; [done|]. intros [= <-].
    unfold start_download. destruct (truthy (rq_url rq)); simpl.
    + split; [set_solver|]. split; [done|].
      destruct (decide (k = fresh)) as [->|Hne].
      * right. rewrite lookup_insert_eq. split; [done|].
        split; [set_solver|by eexists].
      * left. by rewrite lookup_insert_ne.
    + split; [done|]. split; [done|by left].
  - destruct (workers st !! job_id); [|done]. intros [= <-]. simpl.
    split; [done|]. split; [by eexists|done].
  - destruct (workers st !! job_id) as [w|]; [|done]. intros [= <-]. simpl.
    split; [done|]. split; [by eexists|done].
  - destruct (cleanup_cycle_shrinks now removable st)
      as (st1 & -> & Hw & Hi & _).
    intros [= <-]. split; [by rewrite Hi|done].
  - by intros [= <-].
  - case_bool_decide; [|done]. by intros [= <-].
Qed.

(** The threads that are leaving their [with] block after a step. *)
Lemma step_closing (st st' : system) (a : action) :
  step st a = Some st' ->
  match a with
  | Finish _ job_id (Returned _) => closing st' = {[job_id]} ∪ closing st
  | Exit _ job_id _ =>
      job_id ∈ closing st /\ closing st' = closing st ∖ {[job_id]}
  | _ => closing st' = closing st
  end.
Proof.
  destruct a
    as [now fresh rq|now job_id d|now job_id o|now removable|fs
       |now job_id raised];
    simpl.
  - case_bool_decide; [done|]. intros [= <-].
    unfold start_download. by destruct (truthy (rq_url rq)).
  - destruct (workers st !! job_id); [|done]. by intros [= <-].
  - destruct (workers st !! job_id) as [w|]; [|done]. intros [= <-].
    by destruct o.
  - unfold cleanup_cycle. generalize (snapshot (jobs st)). intros l.
    revert st. induction l as [|k l IH]; intros st; simpl.
    + by intros [= <-].
    + unfold cleanup_job at 1. destruct (jobs st !! k) as [j|]; [|done].
      destruct (expired now j); simpl; intros Hrun.
      * destruct (try_fold _ _ l) as [e|st1] eqn:Hfold; [done|].
        simplify_eq. by rewrite (IH _ ltac:(by rewrite Hfold)).
      * by apply IH.
  - by intros [= <-].
  - case_bool_decide; [|done]. by intros [= <-].
Qed.

(** A property of records that holds at the start and of every record
    written along a trace holds of every record at its end. *)
Lemma run_records (P : job -> Prop) (tr : list action) :
  forall st st' : system,
    run st tr = Some st' ->
    (forall k j, jobs st !! k = Some j -> P j) ->
    (forall st1 a k j, a ∈ tr -> written st1 a = Some (k, j) -> P j) ->
    forall k j, jobs st' !! k = Some j -> P j.
Proof.
  induction tr as [|a tr IH]; intros st st' Hrun Hst Hwr; simpl in Hrun.
  - by simplify_eq.
  - destruct (step st a) as [st1|] eqn:Hstep; [|done].
    apply (IH st1 st' Hrun).
    + intros k j Hk.
      destruct (step_jobs st st1 a k Hstep)
        as [(j' & Hw & Hj')|[_ [Hsame|Hgone]]].
      * rewrite Hj' in Hk. simplify_eq. eapply Hwr; [by left|done].
      * rewrite Hsame in Hk. by eapply Hst.
      * congruence.
    + intros st2 a' k j Ha'. apply Hwr. by right.
Qed.

(** The record a written action leaves: which file name goes with which
    status. *)
Lemma written_filename (st : system) (a : action) (k : string) (j : job) :
  written st a = Some (k, j) ->
  (forall now prepared, a = Finish now k (Returned prepared) ->
   fills_outtmpl k prepared) ->
  (truthy (filename j) = true <-> status j = "completed") /\
  (status j <> "completed" -> filename j = None).
Proof.
  intros Hw Hnames.
  destruct a
    as [now fresh rq|now job_id d|now job_id o|now removable|fs
       |now job_id raised];
    simpl in Hw; try done.
  - destruct (truthy (rq_url rq)); by simplify_eq.
  - destruct (String.eqb (ev_status d) "downloading");
      [|destruct (String.eqb (ev_status d) "finished")];
      by simplify_eq.
  - destruct (workers st !! job_id) as [w|]; [|done].
    destruct o as [prepared|msg]; simplify_eq; simpl; [|done].
    pose proof (recorded_name_nonempty k (w_opts w) prepared
                  (Hnames _ _ eq_refl)) as Hne.
    destruct (basename _); [done|]. split; [done|]. by intros [].
  - destruct raised as [msg|]; [|done].
    case_bool_decide; by simplify_eq.
Qed.

(** C1: in every state the process reaches, a record has a (non-empty)
    file name exactly when its status is 'completed', and no file name at
    all otherwise.  This is so write by write: the dispatcher's 'starting'
    write, the hook's 'downloading' and 'processing' writes and both
    'error' writes of the worker store no file name, and the worker's
    success write, which every running worker can make, stores 'completed'
    together with a non-empty name. *)
Theorem filename_iff_completed (tr : list action) (st : system) :
  run initial tr = Some st ->
  prepared_names_ok tr ->
  (forall k j,
     jobs st !! k = Some j ->
     (truthy (filename j) = true <-> status j = "completed") /\
     (status j <> "completed" -> filename j = None)) /\
  (forall st0 st1 now fresh rq,
     step st0 (Dispatch now fresh rq) = Some st1 ->
     truthy (rq_url rq) = true ->
     exists j, jobs st1 !! fresh = Some j /\
               status j = "starting" /\ filename j = None) /\
  (forall st0 st1 now k d,
     step st0 (Progress now k d) = Some st1 ->
     ev_status d = "downloading" \/ ev_status d = "finished" ->
     exists j, jobs st1 !! k = Some j /\ filename j = None /\
               (status j = "downloading" \/ status j = "processing")) /\
  (forall st0 st1 now k msg,
     step st0 (Finish now k (Raised msg)) = Some st1 \/
     step st0 (Exit now k (Some msg)) = Some st1 ->
     exists j, jobs st1 !! k = Some j /\
               status j = "error" /\ filename j = None) /\
  (forall st0 w now k prepared,
     workers st0 !! k = Some w ->
     fills_outtmpl k prepared ->
     exists st1 j n,
       step st0 (Finish now k (Returned prepared)) = Some st1 /\
       jobs st1 !! k = Some j /\
       status j = "completed" /\ filename j = Some n /\ n <> "").
Proof.
  intros Hrun Hnames. split; [|split; [|split; [|split]]].
  - apply (run_records _ tr initial st Hrun).
    + intros k j. simpl. by rewrite lookup_empty.
    + intros st1 a k j Ha Hw. apply (written_filename st1 a k j Hw).
      intros now prepared ->. by eapply Hnames.
  - intros st0 st1 now fresh rq Hstep Hurl. simpl in Hstep.
    case_bool_decide; [done|]. unfold start_download in Hstep.
    rewrite Hurl in Hstep. simplify_eq. simpl.
    unfold update_job_status. rewrite lookup_insert_eq. by eexists.
  - intros st0 st1 now k d Hstep Hd. simpl in Hstep.
    destruct (workers st0 !! k); simplify_eq. simpl.
    unfold progress_hook, update_job_status.
    destruct Hd as [-> | ->]; simpl; rewrite lookup_insert_eq; eexists;
      (split; [reflexivity|]); (split; [done|]); [by left|by right].
  - intros st0 st1 now k msg [Hstep|Hstep]; simpl in Hstep.
    + destruct (workers st0 !! k); simplify_eq. simpl.
      unfold update_job_status. rewrite lookup_insert_eq. by eexists.
    + case_bool_decide; simplify_eq. simpl.
      unfold update_job_status. rewrite lookup_insert_eq. by eexists.
  - intros st0 w now k prepared Hw Hfills. simpl. rewrite Hw.
    eexists _, _, _. split; [reflexivity|]. simpl.
    unfold update_job_status. rewrite lookup_insert_eq.
    split; [reflexivity|]. split; [done|]. split; [reflexivity|].
    by apply (recorded_name_nonempty k).
Qed.

(** Whose record an action writes, and in which state it leaves it. *)
Lemma written_target (st : system) (a : action) (k : string) (j : job) :
  written st a = Some (k, j) ->
  match a with
  | Dispatch _ fresh _ => k = fresh /\ ~ terminal j
  | Progress _ job_id _ => k = job_id /\ ~ terminal j
  | Finish _ job_id o =>
      k = job_id /\ terminal j /\
      (status j = "error" -> exists msg, o = Raised msg)
  | Exit _ job_id _ => k = job_id /\ status j = "error"
  | Sweep _ _ | Disk _ => False
  end.
Proof.
  unfold terminal.
  destruct a
    as [now fresh rq|now job_id d|now job_id o|now removable|fs
       |now job_id raised];
    simpl; try done.
  - destruct (truthy (rq_url rq)); intros; simplify_eq.
    split; [done|]. by intros [|].
  - destruct (String.eqb (ev_status d) "downloading");
      [|destruct (String.eqb (ev_status d) "finished")];
      intros; simplify_eq; (split; [done|]); by intros [|].
  - destruct (workers st !! job_id) as [w|]; [|done].
    destruct o as [prepared|msg]; intros; simplify_eq;
      (split; [done|]); (split; [by (left + right)|]); [done|by eexists].
  - destruct raised as [msg|]; [|done].
    case_bool_decide; intros; by simplify_eq.
Qed.

Lemma step_consistent (st st' : system) (a : action) :
  consistent st -> step st a = Some st' -> consistent st'.
Proof.
  intros (Hjobs & Hworkers & Hterm & Hclosing & Herror) Hstep.
  assert (Hkeep : forall k,
            is_Some (workers st' !! k) ->
            is_Some (workers st !! k) \/
            exists now rq, a = Dispatch now k rq /\ (k ∉ issued st) /\
                           k ∈ issued st').
  { intros k Hk. pose proof (step_workers st st' a k Hstep) as [_ Hw].
    destruct a
      as [now fresh rq|now job_id d|now job_id o|now removable|fs
         |now job_id raised].
    - destruct Hw as [Hfresh [Hw|(-> & Hin & _)]];
        [left; by rewrite <- Hw|right; eauto].
    - destruct Hw as [_ Hw]. left. by rewrite <- Hw.
    - destruct Hw as [_ Hw]. left. rewrite Hw in Hk.
      apply lookup_delete_is_Some in Hk. tauto.
    - left. by rewrite <- Hw.
    - left. by rewrite <- Hw.
    - left. by rewrite <- Hw. }
  pose proof (fun k => proj1 (step_workers st st' a k Hstep)) as Hsub.
  pose proof (step_closing st st' a Hstep) as Hcl.
  assert (Hclosing_sub : forall k,
            k ∈ closing st' ->
            k ∈ closing st \/
            exists now prepared, a = Finish now k (Returned prepared)).
  { intros k Hk.
    destruct a
      as [now fresh rq|now job_id d|now job_id o|now removable|fs
         |now job_id raised];
      try (rewrite Hcl in Hk; by left).
    - destruct o as [prepared|msg]; rewrite Hcl in Hk; [|by left].
      apply elem_of_union in Hk as [->%elem_of_singleton|Hk];
        [right; eauto|by left].
    - destruct Hcl as [_ Hcl]. rewrite Hcl in Hk. left. set_solver. }
  split; [|split; [|split; [|split]]].
  - intros k [j Hk].
    destruct (step_jobs st st' a k Hstep)
      as [(j' & Hw & _)|[_ [Hsame|Hgone]]]; [| |congruence].
    + pose proof (step_workers st st' a k Hstep) as [_ Hwk].
      destruct a
        as [now fresh rq|now job_id d|now job_id o|now removable|fs
           |now job_id raised];
        try done.
      * simpl in Hstep, Hw. case_bool_decide; [done|].
        unfold start_download in Hstep.
        destruct (truthy (rq_url rq)); simplify_eq. simpl. set_solver.
      * apply written_target in Hw as [-> _].
        apply (Hsub job_id), Hworkers. tauto.
      * apply written_target in Hw as [-> _].
        apply (Hsub job_id), Hworkers. tauto.
      * apply written_target in Hw as [-> _].
        apply (Hsub job_id), Hclosing. tauto.
    + apply (Hsub k), Hjobs. rewrite <- Hsame. by exists j.
  - intros k Hk. destruct (Hkeep k Hk) as [Hold|(now & rq & _ & _ & Hin)];
      [|done].
    by apply (Hsub k), Hworkers.
  - intros k j Hk Hterminal.
    destruct (workers st' !! k) as [w|] eqn:Hwk; [exfalso|done].
    destruct (step_jobs st st' a k Hstep)
      as [(j' & Hw & Hj')|[_ [Hsame|Hgone]]]; [| |congruence].
    + rewrite Hj' in Hk. simplify_eq. apply written_target in Hw.
      destruct a
        as [now fresh rq|now job_id d|now job_id o|now removable|fs
           |now job_id raised];
        try tauto.
      * destruct Hw as [-> _].
        pose proof (step_workers st st' _ job_id Hstep) as [_ [_ Hdel]].
        by rewrite Hdel, lookup_delete_eq in Hwk.
      * destruct Hw as [-> _]. destruct Hcl as [Hin _].
        pose proof (step_workers st st' _ job_id Hstep) as [_ Hsame].
        rewrite Hsame in Hwk. destruct (Hclosing job_id Hin). congruence.
    + rewrite Hsame in Hk.
      destruct (Hkeep k) as [[w' Hold]|(now & rq & _ & Hfresh & _)];
        [by eexists| |].
      * by rewrite (Hterm k j Hk Hterminal) in Hold.
      * apply Hfresh, Hjobs. by eexists.
  - intros k Hk.
    destruct (Hclosing_sub k Hk) as [Hold|(now & prepared & ->)].
    + destruct (Hclosing k Hold) as [Hin Hnone].
      split; [by apply (Hsub k)|].
      destruct (workers st' !! k) as [w|] eqn:Hwk; [exfalso|done].
      destruct (Hkeep k) as [[w' Hw']|(now & rq & _ & Hfresh & _)];
        [by eexists|congruence|done].
    + pose proof (step_workers st st' _ k Hstep) as [_ [Hsome Hdel]].
      split; [by apply (Hsub k), Hworkers|].
      by rewrite Hdel, lookup_delete_eq.
  - intros k j Hk Hstatus Hin.
    destruct (step_jobs st st' a k Hstep)
      as [(j' & Hw & Hj')|[_ [Hsame|Hgone]]]; [| |congruence].
    + rewrite Hj' in Hk. simplify_eq. apply written_target in Hw.
      destruct a
        as [now fresh rq|now job_id d|now job_id o|now removable|fs
           |now job_id raised];
        try done.
      * destruct Hw as [_ Hnot]. apply Hnot. by right.
      * destruct Hw as [_ Hnot]. apply Hnot. by right.
      * destruct Hw as (-> & _ & Hraised).
        destruct (Hraised Hstatus) as [msg ->].
        rewrite Hcl in Hin.
        pose proof (step_workers st st' _ job_id Hstep) as [_ [[w Hw] _]].
        destruct (Hclosing job_id Hin). congruence.
      * destruct Hw as [-> _]. destruct Hcl as [_ Hcl].
        rewrite Hcl in Hin. set_solver.
    + rewrite Hsame in Hk.
      destruct (Hclosing_sub k Hin) as [Hold|(now & prepared & ->)].
      * by apply (Herror k j Hk Hstatus).
      * pose proof (step_workers st st' _ k Hstep) as [_ [[w Hw] _]].
        assert (terminal j) as Hterminal by (by right).
        by rewrite (Hterm k j Hk Hterminal) in Hw.
Qed.

Lemma run_consistent (tr : list action) :
  forall st st' : system,
    consistent st -> run st tr = Some st' -> consistent st'.
Proof.
  induction tr as [|a tr IH]; intros st st' Hst Hrun; simpl in Hrun.
  - by simplify_eq.
  - destruct (step st a) as [st1|] eqn:Hstep; [|done].
    eauto using step_consistent.
Qed.

Lemma initial_consistent : consistent initial.
Proof.
  unfold consistent, initial. simpl.
  split; [|split; [|split; [|split]]].
  - intros k. rewrite lookup_empty. by intros [? ?].
  - intros k. rewrite lookup_empty. by intros [? ?].
  - intros k j. by rewrite lookup_empty.
  - intros k Hk. by apply not_elem_of_empty in Hk.
  - intros k j. by rewrite lookup_empty.
Qed.

(** Once the thread of a drawn identifier has ended, nothing writes its
    record again: it stays as it is until a sweep removes it. *)
Lemma run_frozen (k : string) (j : job) (tr : list action) :
  forall st st' : system,
    run st tr = Some st' ->
    k ∈ issued st -> workers st !! k = None -> k ∉ closing st ->
    (jobs st !! k = Some j \/ jobs st !! k = None) ->
    (jobs st' !! k = Some j \/ jobs st' !! k = None) /\
    k ∉ written_ids st tr.
Proof.
  induction tr as [|a tr IH]; intros st st' Hrun Hin Hnone Hnc Hrec;
    simpl in *.
  - simplify_eq. split; [done|apply not_elem_of_nil].
  - destruct (step st a) as [st1|] eqn:Hstep; [|done].
    pose proof (step_workers st st1 a k Hstep) as [Hsub Hwk].
    pose proof (step_closing st st1 a Hstep) as Hcl.
    assert (Hnot : forall j', written st a <> Some (k, j')).
    { intros j' Hw. apply written_target in Hw.
      destruct a; try done; destruct Hw as [-> _].
      - by destruct Hwk as [Hfresh _].
      - destruct Hwk as [[w Hw] _]. congruence.
      - destruct Hwk as [[w Hw] _]. congruence.
      - by destruct Hcl as [? _]. }
    destruct (IH st1 st' Hrun) as [Hend Hids].
    + by apply Hsub.
    + destruct a
        as [now fresh rq|now job_id d|now job_id o|now removable|fs
           |now job_id raised].
      * destruct Hwk as [Hfresh [Hwk|(-> & _)]]; [by rewrite Hwk|done].
      * destruct Hwk as [_ Hwk]. by rewrite Hwk.
      * destruct Hwk as [_ Hwk]. rewrite Hwk.
        apply lookup_delete_None. by right.
      * by rewrite Hwk.
      * by rewrite Hwk.
      * by rewrite Hwk.
    + destruct a
        as [now fresh rq|now job_id d|now job_id o|now removable|fs
           |now job_id raised];
        try (by rewrite Hcl).
      * destruct o as [prepared|msg]; rewrite Hcl; [|done].
        destruct Hwk as [[w Hw] _].
        apply not_elem_of_union. split; [|done].
        intros ->%elem_of_singleton. congruence.
      * destruct Hcl as [_ ->]. set_solver.
    + destruct (step_jobs st st1 a k Hstep)
        as [(j' & Hw & _)|[_ [Hsame|Hgone]]].
      * by destruct (Hnot j').
      * by rewrite Hsame.
      * by right.
    + split; [done|].
      destruct (written st a) as [[k' j']|] eqn:Hw; [|done].
      apply not_elem_of_cons. split; [|done].
      intros ->. by destruct (Hnot j').
Qed.

(** ** The progress value *)

Lemma zero_in_range : in_percent_range (Finite 0) = true.
Proof. reflexivity. Qed.

Lemma hundred_in_range : in_percent_range (Finite 100) = true.
Proof. reflexivity. Qed.

(** C5, as the code has it: the value stored is 0, 100 or exactly what
    [float()] makes of the percentage the collaborator reports, neither
    clamped nor compared with the value before.  It is in [0,100] in every
    reachable state when the reported percentages are, and of two
    successive 'downloading' writes the second stores at least as much as
    the first when the collaborator reports at least as much. *)
Theorem progress_follows_reports (tr : list action) (st : system) :
  run initial tr = Some st ->
  percentages_in_range tr ->
  (forall k j, jobs st !! k = Some j -> in_percent_range (progress j) = true)
  /\
  (forall now now' k d d' js,
     ev_status d = "downloading" -> ev_status d' = "downloading" ->
     exists j j',
       progress_hook now k d js !! k = Some j /\
       progress_hook now' k d' (progress_hook now k d js) !! k = Some j' /\
       progress j = float_or_zero (percent_text d) /\
       progress j' = float_or_zero (percent_text d') /\
       (pyfloat_le (float_or_zero (percent_text d))
          (float_or_zero (percent_text d')) = true ->
        pyfloat_le (progress j) (progress j') = true)).
Proof.
  intros Hrun Hrange. split.
  - apply (run_records (fun j => in_percent_range (progress j) = true)
             tr initial st Hrun).
    + intros k j. simpl. by rewrite lookup_empty.
    + intros st1 a k j Ha Hw.
      destruct a
        as [now fresh rq|now job_id d|now job_id o|now removable|fs
         |now job_id raised];
        simpl in Hw; try done.
      * destruct (truthy (rq_url rq)); by simplify_eq.
      * destruct (String.eqb (ev_status d) "downloading") eqn:Hd;
          [|destruct (String.eqb (ev_status d) "finished")];
          simplify_eq; simpl; [|done].
        apply String.eqb_eq in Hd. unfold float_or_zero.
        destruct (py_float (percent_text d)) as [x|] eqn:Hx; [|done].
        by eapply Hrange.
      * destruct (workers st1 !! job_id) as [w|]; [|done].
        destruct o; by simplify_eq.
      * destruct raised as [msg|]; [|done].
        case_bool_decide; by simplify_eq.
  - intros now now' k d d' js Hd Hd'.
    unfold progress_hook, update_job_status. rewrite Hd, Hd'. simpl.
    rewrite !lookup_insert_eq. by eexists _, _.
Qed.

(** ** The format listing *)

Lemma resolutions_cases (h : Z) :
  h ∈ resolutions ->
  h = 360 \/ h = 480 \/ h = 720 \/ h = 1080 \/ h = 1440 \/ h = 2160.
Proof.
  clear py_float cwd.
  unfold resolutions. rewrite !elem_of_cons, elem_of_nil. tauto. Qed.

(** [int(f'{h}p'.replace('p', ''))] is [h] again. *)
Lemma quality_read_back (h : Z) :
  h ∈ resolutions -> py_int (str_remove "p" (pretty h +:+ "p")) = Some h.
Proof.
  intros Hh. apply resolutions_cases in Hh.
  destruct Hh as [->|[->|[->|[->|[->| ->]]]]]; reflexivity.
Qed.

Lemma filed_key (c : candidate) : filed c -> quality_key c = ok (res_of c).
Proof.
  intros (h & Hh & Hq). unfold quality_key, res_of.
  by rewrite Hq, quality_read_back.
Qed.

Lemma filed_res (c : candidate) (h : Z) :
  h ∈ resolutions -> c_quality c = pretty h +:+ "p" -> res_of c = h.
Proof. intros Hh Hq. unfold res_of. by rewrite Hq, quality_read_back. Qed.

(** Among filed candidates the quality and the resolution determine each
    other. *)
Lemma filed_quality_inj (c1 c2 : candidate) :
  filed c1 -> filed c2 ->
  res_of c1 = res_of c2 -> c_quality c1 = c_quality c2.
Proof.
  intros (h1 & Hh1 & Hq1) (h2 & Hh2 & Hq2).
  rewrite (filed_res c1 h1), (filed_res c2 h2) by done.
  intros ->. congruence.
Qed.

Lemma candidate_of_Some (f : fmt) (c : candidate) :
  candidate_of f = Some c <->
  exists h,
    video_at f h /\
    c = Candidate (f_format_id f) (f_ext f) (pretty h +:+ "p")
          (default "" (f_format_note f))
          (py_or (f_filesize_approx f) (f_filesize f)) (has_audio f).
Proof.
  unfold candidate_of, video_at. split.
  - case_bool_decide as Hv; [done|].
    destruct (f_height f) as [h|]; [|done].
    case_bool_decide as H0; [done|]. case_bool_decide as Hh; [|done].
    simpl. intros [= <-]. by exists h.
  - intros (h & (Hv & -> & Hh) & ->).
    rewrite bool_decide_eq_false_2 by done.
    rewrite (bool_decide_eq_true_2 _ Hh).
    rewrite bool_decide_eq_false_2; [done|].
    apply resolutions_cases in Hh. lia.
Qed.

Lemma candidate_of_filed (f : fmt) (c : candidate) :
  candidate_of f = Some c -> filed c.
Proof.
  intros (h & (_ & _ & Hh) & ->)%candidate_of_Some. by exists h.
Qed.

(** *** Sorting *)

Lemma try_map_keys (l : list candidate) :
  Forall filed l -> try_map quality_key l = ok (res_of <$> l).
Proof.
  induction 1 as [|c l Hc _ IH]; simpl; [done|].
  by rewrite (filed_key c Hc), IH.
Qed.

Lemma insert_desc_perm (x : Z * candidate) (l : list (Z * candidate)) :
  insert_desc x l ≡ₚ x :: l.
Proof.
  induction l as [|y l IH]; simpl; [done|].
  case_bool_decide; [|done]. rewrite IH. apply perm_swap.
Qed.

Lemma sort_desc_perm (l : list (Z * candidate)) : sort_desc l ≡ₚ l.
Proof.
  induction l as [|x l IH]; simpl; [done|].
  by rewrite insert_desc_perm, IH.
Qed.

Lemma insert_desc_sorted (x : Z * candidate) (l : list (Z * candidate)) :
  StronglySorted key_ge l -> StronglySorted key_ge (insert_desc x l).
Proof.
  induction 1 as [|y l Hl IH Hy]; simpl.
  - repeat constructor.
  - case_bool_decide as Hlt.
    + constructor; [done|]. rewrite insert_desc_perm.
      constructor; [unfold key_ge; lia|done].
    + constructor; [by constructor|].
      constructor; [unfold key_ge; lia|].
      eapply Forall_impl; [exact Hy|]. unfold key_ge. intros; lia.
Qed.

Lemma sort_desc_sorted (l : list (Z * candidate)) :
  StronglySorted key_ge (sort_desc l).
Proof.
  induction l as [|x l IH]; simpl; [constructor|].
  by apply insert_desc_sorted.
Qed.

(** The sort never raises on filed candidates; it permutes them into
    descending order of resolution. *)
Lemma sort_by_quality_sorted (l : list candidate) :
  Forall filed l ->
  exists l',
    sort_by_quality l = ok l' /\ l' ≡ₚ l /\ StronglySorted res_ge l'.
Proof.
  intros Hl. unfold sort_by_quality. rewrite (try_map_keys l Hl). simpl.
  eexists. split; [reflexivity|].
  assert (Hlen : (List.length l <= List.length (res_of <$> l))%nat)
    by (by rewrite length_fmap).
  split.
  - rewrite sort_desc_perm. by rewrite snd_zip.
  - assert (Hpairs : Forall (fun p => p.1 = res_of p.2)
                       (sort_desc (zip (res_of <$> l) l))).
    { rewrite sort_desc_perm. clear. induction l; simpl; by constructor. }
    pose proof (sort_desc_sorted (zip (res_of <$> l) l)) as Hs.
    induction Hs as [|p s Hs IH Hp]; simpl; [constructor|].
    apply Forall_cons in Hpairs as [Hp1 Hpairs].
    constructor; [by apply IH|].
    apply Forall_fmap, Forall_forall. intros q Hq. simpl.
    rewrite Forall_forall in Hp, Hpairs.
    unfold res_ge. rewrite <- Hp1, <- (Hpairs q Hq). by apply Hp.
Qed.

(** *** Deduplication *)

Lemma res_of_quality (c1 c2 : candidate) :
  c_quality c1 = c_quality c2 -> res_of c1 = res_of c2.
Proof. unfold res_of. by intros ->. Qed.

Lemma dedup_step_inv (seen U : list candidate) (S : gmap string candidate)
    (f : candidate) :
  dedup_inv seen U S ->
  Forall filed (seen ++ [f])%list ->
  (forall c, c ∈ seen -> res_of f <= res_of c) ->
  exists U' S',
    dedup_step (U, S) f = ok (U', S') /\ dedup_inv (seen ++ [f])%list U' S'.
Proof.
  intros (Hidx & Hcov & Hsorted & Hfrom & Hrep) Hfiled Hle.
  apply Forall_app in Hfiled as [Hfiled Hf]. rewrite Forall_singleton in Hf.
  rewrite Forall_forall in Hfiled.
  unfold dedup_step.
  destruct (S !! c_quality f) as [g|] eqn:Hq.
  - destruct (Hidx _ _ Hq) as [Hg Hgq].
    destruct (c_has_audio f && negb (c_has_audio g))%bool eqn:Hprefer.
    + apply andb_true_iff in Hprefer as [Hfa Hga].
      destruct (list_find_elem_of (fun x => c_quality x = c_quality f) U g
                  Hg Hgq) as [[idx x] Hfind].
      rewrite Hfind. apply list_find_Some in Hfind as (Hx & Hxq & _).
      pose proof (lookup_lt_Some _ _ _ Hx) as Hlen.
      eexists _, _. split; [reflexivity|].
      split; [|split; [|split; [|split]]].
      * intros q' g' [ [<- <-] | [Hne Hg'] ]%lookup_insert_Some.
        { split; [by apply list_elem_of_insert|done]. }
        destruct (Hidx _ _ Hg') as [[i Hi]%list_elem_of_lookup Hq'].
        split; [|done]. apply list_elem_of_lookup. exists i.
        rewrite list_lookup_insert_ne; [done|]. intros ->. congruence.
      * intros c [i Hi]%list_elem_of_lookup.
        apply list_lookup_insert_Some in Hi as [(_ & <- & _)|[_ Hi]].
        { rewrite lookup_insert_eq. by eexists. }
        apply lookup_insert_is_Some'. right.
        apply Hcov, list_elem_of_lookup. by exists i.
      * rewrite list_fmap_insert, list_insert_id; [done|].
        rewrite list_lookup_fmap, Hx. simpl. f_equal.
        by apply res_of_quality.
      * intros c [i Hi]%list_elem_of_lookup.
        apply list_lookup_insert_Some in Hi as [(_ & <- & _)|[_ Hi]].
        { apply elem_of_app. right. by apply list_elem_of_singleton. }
        apply elem_of_app. left. apply Hfrom, list_elem_of_lookup.
        by exists i.
      * intros p [Hp| ->%list_elem_of_singleton]%elem_of_app.
        -- destruct (Hrep p Hp) as (c & [i Hi]%list_elem_of_lookup & Hcq & Hca).
           destruct (decide (i = idx)) as [->|Hne].
           ++ exists f. split; [by apply list_elem_of_insert|].
              split; [|done]. congruence.
           ++ exists c. split; [|done]. apply list_elem_of_lookup. exists i.
              by rewrite list_lookup_insert_ne.
        -- exists f. split; [by apply list_elem_of_insert|done].
    + eexists _, _. split; [reflexivity|].
      split; [done|]. split; [done|]. split; [done|]. split.
      * intros c Hc. apply elem_of_app. left. by apply Hfrom.
      * intros p [Hp| ->%list_elem_of_singleton]%elem_of_app; [by apply Hrep|].
        exists g. split; [done|]. split; [done|].
        intros Hfa. rewrite Hfa in Hprefer. simpl in Hprefer.
        by apply negb_false_iff in Hprefer.
  - eexists _, _. split; [reflexivity|].
    split; [|split; [|split; [|split]]].
    + intros q' g' [ [<- <-] | [Hne Hg'] ]%lookup_insert_Some.
      { split; [|done]. apply elem_of_app. right.
        by apply list_elem_of_singleton. }
      destruct (Hidx _ _ Hg') as [Hin Hq'].
      split; [|done]. apply elem_of_app. by left.
    + intros c [Hc| ->%list_elem_of_singleton]%elem_of_app.
      * apply lookup_insert_is_Some'. right. by apply Hcov.
      * rewrite lookup_insert_eq. by eexists.
    + rewrite fmap_app. apply StronglySorted_app.
      split; [|split; [done|repeat constructor]].
      intros x1 x2 (c & -> & Hc)%list_elem_of_fmap Hx2.
      apply list_elem_of_singleton in Hx2 as ->.
      pose proof (Hle c (Hfrom c Hc)) as Hge.
      destruct (decide (res_of c = res_of f)) as [Heq|Hne]; [|lia].
      pose proof (filed_quality_inj c f (Hfiled c (Hfrom c Hc)) Hf Heq) as Hcq.
      destruct (Hcov c Hc) as [g Hg]. congruence.
    + intros c [Hc|Hc]%elem_of_app; apply elem_of_app;
        [left; by apply Hfrom|by right].
    + intros p [Hp| ->%list_elem_of_singleton]%elem_of_app.
      * destruct (Hrep p Hp) as (c & Hc & Hcq & Hca).
        exists c. split; [|done]. apply elem_of_app. by left.
      * exists f. split; [|done]. apply elem_of_app. right.
        by apply list_elem_of_singleton.
Qed.

(** The whole loop on what is left of a sorted list of filed candidates. *)
Lemma dedup_loop (rest : list candidate) :
  forall (seen U : list candidate) (S : gmap string candidate),
    dedup_inv seen U S ->
    Forall filed (seen ++ rest)%list ->
    StronglySorted res_ge (seen ++ rest)%list ->
    exists U' S',
      try_fold dedup_step (U, S) rest = ok (U', S') /\
      dedup_inv (seen ++ rest)%list U' S'.
Proof.
  induction rest as [|f rest IH]; intros seen U S Hinv Hfiled Hsorted.
  - exists U, S. by rewrite app_nil_r.
  - replace (seen ++ f :: rest)%list with ((seen ++ [f]) ++ rest)%list in *
      by (by rewrite <- app_assoc).
    destruct (dedup_step_inv seen U S f Hinv) as (U1 & S1 & Hstep & Hinv1).
    + by apply Forall_app in Hfiled as [Hfiled _].
    + intros c Hc. apply StronglySorted_app_1_l in Hsorted.
      apply (StronglySorted_app_1_elem_of _ _ _ c f) in Hsorted;
        [done|done|by apply list_elem_of_singleton].
    + destruct (IH _ _ _ Hinv1 Hfiled Hsorted) as (U' & S' & Hloop & Hinv').
      exists U', S'. split; [|done].
      cbn [try_fold]. by rewrite Hstep.
Qed.

Lemma dedup_inv_empty : dedup_inv [] [] ∅.
Proof.
  split; [|split; [|split; [|split]]].
  - intros q g. by rewrite lookup_empty.
  - intros c Hc. by apply not_elem_of_nil in Hc.
  - constructor.
  - done.
  - intros p Hp. by apply not_elem_of_nil in Hp.
Qed.

(** Deduplication never raises on a sorted list of filed candidates. *)
Lemma deduplicate_sorted (l : list candidate) :
  Forall filed l -> StronglySorted res_ge l ->
  exists U S, deduplicate l = ok U /\ dedup_inv l U S.
Proof.
  intros Hfiled Hsorted.
  destruct (dedup_loop l [] [] ∅ dedup_inv_empty Hfiled Hsorted)
    as (U & S & Hloop & Hinv).
  exists U, S. unfold deduplicate. by rewrite Hloop.
Qed.

Lemma descending_NoDup (l : list Z) : StronglySorted Z.gt l -> NoDup l.
Proof.
  induction 1 as [|x l Hl IH Hx]; constructor; [|done].
  rewrite Forall_forall in Hx. intros Hin. specialize (Hx x Hin). lia.
Qed.

(** Two entries of [unique_formats] of the same quality are the same. *)
Lemma dedup_inv_unique (seen U : list candidate) (S : gmap string candidate)
    (c1 c2 : candidate) :
  dedup_inv seen U S -> c1 ∈ U -> c2 ∈ U ->
  c_quality c1 = c_quality c2 -> c1 = c2.
Proof.
  intros (_ & _ & Hsorted%descending_NoDup & _)
    [i Hi]%list_elem_of_lookup [j Hj]%list_elem_of_lookup Hq.
  assert (i = j) as ->; [|congruence].
  apply (NoDup_lookup _ i j (res_of c1) Hsorted).
  - by rewrite list_lookup_fmap, Hi.
  - rewrite list_lookup_fmap, Hj. simpl. f_equal.
    symmetry. by apply res_of_quality.
Qed.

(** What the listing computes before rendering: a sorted permutation of
    the candidates, deduplicated. *)
Lemma list_formats_run (i : info) :
  exists sorted U S,
    list_formats i = ok (render <$> U) /\
    sorted ≡ₚ omap candidate_of (default [] (i_formats i)) /\
    Forall filed sorted /\
    dedup_inv sorted U S.
Proof.
  unfold list_formats.
  set (cands := omap candidate_of (default [] (i_formats i))).
  assert (Hfiled : Forall filed cands).
  { apply Forall_forall. intros c (f & _ & Hf)%list_elem_of_omap.
    by eapply candidate_of_filed. }
  destruct (sort_by_quality_sorted cands Hfiled)
    as (sorted & -> & Hperm & Hsorted).
  assert (Hfiled' : Forall filed sorted) by (by rewrite Hperm).
  destruct (deduplicate_sorted sorted Hfiled' Hsorted)
    as (U & S & Hdedup & Hinv).
  exists sorted, U, S. simpl. by rewrite Hdedup.
Qed.

(** Every entry kept comes from a video format of a listed resolution. *)
Lemma unique_origin (formats : list fmt) (sorted U : list candidate)
    (S : gmap string candidate) (c : candidate) :
  sorted ≡ₚ omap candidate_of formats -> dedup_inv sorted U S -> c ∈ U ->
  exists f h,
    f ∈ formats /\ video_at f h /\ res_of c = h /\
    c = Candidate (f_format_id f) (f_ext f) (pretty h +:+ "p")
          (default "" (f_format_note f))
          (py_or (f_filesize_approx f) (f_filesize f)) (has_audio f).
Proof.
  intros Hperm (_ & _ & _ & Hfrom & _) Hc.
  apply Hfrom in Hc. rewrite Hperm in Hc.
  apply list_elem_of_omap in Hc as (f & Hf & Hcand).
  apply candidate_of_Some in Hcand as (h & Hv & ->).
  exists f, h. repeat split; try done; try apply Hv.
  apply filed_res; [apply Hv|done].
Qed.

(** Every video format of a listed resolution is represented by an entry
    of its quality, with audio if the format has audio. *)
Lemma format_represented (formats : list fmt) (sorted U : list candidate)
    (S : gmap string candidate) (f : fmt) (h : Z) :
  sorted ≡ₚ omap candidate_of formats -> dedup_inv sorted U S ->
  f ∈ formats -> video_at f h ->
  exists c, c ∈ U /\ c_quality c = pretty h +:+ "p" /\
            (has_audio f = true -> c_has_audio c = true).
Proof.
  intros Hperm (_ & _ & _ & _ & Hrep) Hf Hv.
  set (p := Candidate (f_format_id f) (f_ext f) (pretty h +:+ "p")
              (default "" (f_format_note f))
              (py_or (f_filesize_approx f) (f_filesize f)) (has_audio f)).
  destruct (Hrep p) as (c & Hc & Hq & Ha).
  - rewrite Hperm. apply list_elem_of_omap. exists f. split; [done|].
    apply candidate_of_Some. by exists h.
  - by exists c.
Qed.

Lemma list_formats_ok (i : info) :
  exists out,
    list_formats i = ok out /\ listing_ok (default [] (i_formats i)) out.
Proof.
  destruct (list_formats_run i) as (sorted & U & S & Hrun & Hperm & _ & Hinv).
  exists (render <$> U). split; [done|]. exists (res_of <$> U).
  split; [|split; [|split; [|split; [|split]]]].
  - rewrite <- !list_fmap_compose. apply Forall_fmap_ext, Forall_forall.
    intros c Hc. simpl.
    destruct (unique_origin _ _ _ _ c Hperm Hinv Hc)
      as (f & h & _ & _ & -> & ->). done.
  - apply Forall_fmap, Forall_forall. intros c Hc. simpl.
    destruct (unique_origin _ _ _ _ c Hperm Hinv Hc)
      as (f & h & _ & Hv & -> & _). apply Hv.
  - apply Hinv.
  - intros h. rewrite list_elem_of_fmap. split.
    + intros (c & -> & Hc).
      destruct (unique_origin _ _ _ _ c Hperm Hinv Hc)
        as (f & h & Hf & Hv & -> & _). by exists f.
    + intros (f & Hf & Hv).
      destruct (format_represented _ _ _ _ f h Hperm Hinv Hf Hv)
        as (c & Hc & Hq & _).
      exists c. split; [|done]. symmetry. apply filed_res; [apply Hv|done].
  - intros e (c & -> & Hc)%list_elem_of_fmap.
    destruct (unique_origin _ _ _ _ c Hperm Hinv Hc)
      as (f & h & Hf & Hv & _ & ->). by exists f, h.
  - intros f h e Hf Hv Ha (c' & -> & Hc')%list_elem_of_fmap Hq.
    destruct (format_represented _ _ _ _ f h Hperm Hinv Hf Hv)
      as (c & Hc & Hcq & Hca).
    assert (c' = c) as ->.
    { eapply dedup_inv_unique; [done..|]. simpl in Hq. congruence. }
    simpl. by rewrite Hca.
Qed.

(** C6: when yt-dlp returns, the endpoint answers 200 with a listing in
    which only the resolutions 360, 480, 720, 1080, 1440 and 2160 occur,
    in strictly descending order (so each at most once), one entry for
    each of them that some video format has, each entry being one of these
    formats, and an audio-bearing one whenever one exists at its
    resolution. *)
Theorem get_formats_listing
    (extract_info : list (string * pyval) -> string -> result info)
    (fs : gset string) (url : string) (i : info) :
  url <> "" ->
  extract_info (formats_ydl_opts fs) url = inr i ->
  exists out,
    get_formats extract_info fs (Some url) =
      Listing 200 (i_title i) (i_thumbnail i) out /\
    listing_ok (default [] (i_formats i)) out.
Proof.
  intros Hurl Hinfo. destruct (list_formats_ok i) as (out & Hout & Hok).
  exists out. split; [|done].
  unfold get_formats. destruct url; [done|]. simpl.
  rewrite Hinfo. simpl. by rewrite Hout.
Qed.

(** C9: every entry of the listing renders one of yt-dlp's video formats:
    without audio it is reported as 'mp4', 'HD (Video Only)', to be merged;
    with audio it keeps the format's own extension and is reported as
    'Video + Audio', not to be merged. *)
Theorem get_formats_rendering
    (extract_info : list (string * pyval) -> string -> result info)
    (fs : gset string) (url : string) (i : info) :
  url <> "" ->
  extract_info (formats_ydl_opts fs) url = inr i ->
  exists out,
    get_formats extract_info fs (Some url) =
      Listing 200 (i_title i) (i_thumbnail i) out /\
    forall e, e ∈ out ->
      exists f h,
        f ∈ default [] (i_formats i) /\ video_at f h /\
        l_id e = f_format_id f /\ l_quality e = pretty h +:+ "p" /\
        if has_audio f
        then l_ext e = f_ext f /\ l_note e = "Video + Audio" /\
             l_needs_merge e = false
        else l_ext e = Some "mp4" /\ l_note e = "HD (Video Only)" /\
             l_needs_merge e = true.
Proof.
  intros Hurl Hinfo.
  destruct (list_formats_run i) as (sorted & U & S & Hrun & Hperm & _ & Hinv).
  exists (render <$> U). split.
  - unfold get_formats. destruct url; [done|]. simpl.
    rewrite Hinfo. simpl. by rewrite Hrun.
  - intros e (c & -> & Hc)%list_elem_of_fmap.
    destruct (unique_origin _ _ _ _ c Hperm Hinv Hc)
      as (f & h & Hf & Hv & _ & ->).
    exists f, h. do 4 (split; [done|]). simpl. by destruct (has_audio f).
Qed.

(** ** More on paths and recorded names *)

Lemma rfind_from_ge (c : ascii) (x : string) (i last : Z) :
  last < i -> last <= rfind_from c i x last.
Proof.
  revert i last. induction x as [|a x IH]; intros i last Hlt; simpl; [lia|].
  destruct (Ascii.eqb a c).
  - etrans; [|apply IH; lia]. lia.
  - apply IH. lia.
Qed.

Lemma str_drop_app (n : nat) (x t : string) :
  (n <= String.length x)%nat -> str_drop n (x +:+ t) = str_drop n x +:+ t.
Proof.
  revert x. induction n as [|n IH]; intros x Hn; [done|].
  destruct x as [|a x]; simpl in *; [lia|]. apply IH. lia.
Qed.

(** A suffix without separators stays attached to the base name. *)
Lemma basename_app (x t : string) :
  has_char slash t = false -> basename (x +:+ t) = basename x +:+ t.
Proof.
  intros Hno. unfold basename, rfind.
  rewrite rfind_from_app, (rfind_from_absent _ _ _ _ Hno).
  pose proof (rfind_from_lt slash x 0 (-1)).
  pose proof (rfind_from_ge slash x 0 (-1)).
  apply str_drop_app. lia.
Qed.

Lemma length_zero_empty (s : string) : String.length s = O -> s = "".
Proof. by destruct s. Qed.

Lemma basename_trailing_slash (x : string) : basename (x +:+ "/") = "".
Proof.
  apply length_zero_empty. unfold basename, rfind.
  rewrite str_drop_length, length_append, rfind_from_app. simpl.
  lia.
Qed.

Lemma ends_with_slash_split (a : string) :
  ends_with_slash a = true -> exists a', a = a' +:+ "/".
Proof.
  induction a as [|c a IH]; [done|]. simpl.
  destruct a as [|c' a].
  - intros ->%Ascii.eqb_eq. by exists "".
  - intros [a' ->]%IH. by exists (String c a').
Qed.

Lemma starts_with_slash_has_char (b : string) :
  has_char slash b = false -> starts_with_slash b = false.
Proof. destruct b as [|c b]; [done|]. simpl. by intros [? ?]%orb_false_elim. Qed.

(** [basename] undoes [os.path.join] on a name without separators. *)
Lemma basename_join (a b : string) :
  has_char slash b = false -> basename (path_join a b) = b.
Proof.
  intros Hno. unfold path_join.
  rewrite (starts_with_slash_has_char b Hno).
  destruct (String.eqb a "") eqn:Ha; simpl.
  - apply String.eqb_eq in Ha as ->. by rewrite basename_app.
  - destruct (ends_with_slash a) eqn:Hs.
    + apply ends_with_slash_split in Hs as [a' ->].
      by rewrite basename_app, basename_trailing_slash.
    + rewrite <- append_assoc.
      by rewrite basename_app, basename_trailing_slash.
Qed.

Lemma append_cancel_r (a b s : string) : a +:+ s = b +:+ s -> a = b.
Proof.
  revert b. induction a as [|c a IH]; intros b Heq.
  - destruct b as [|c b]; [done|].
    apply (f_equal String.length) in Heq.
    rewrite !length_append in Heq. simpl in Heq. lia.
  - destruct b as [|c' b].
    + apply (f_equal String.length) in Heq.
      rewrite !length_append in Heq. simpl in Heq. lia.
    + injection Heq as -> Heq. f_equal. by apply IH.
Qed.


(** X2: for a job that is not audio-only, the name recorded for a file that
    yt-dlp prepared in the download folder leads back to that very file:
    what [download_file] serves and [cleanup] deletes is the artifact. *)
Theorem recorded_name_locates_artifact (fo : format_opts) (name : string) :
  default false (fo_is_audio fo) = false ->
  has_char slash name = false ->
  path_join DOWNLOAD_FOLDER
    (basename (final_filename fo (path_join DOWNLOAD_FOLDER name))) =
  path_join DOWNLOAD_FOLDER name.
Proof.
  intros Haudio Hno. unfold final_filename. rewrite Haudio.
  by rewrite basename_join.
Qed.

(** X3: the output template handed to yt-dlp is a file of the download
    folder whose name starts with the job identifier, so the templates of
    two different jobs differ. *)
Theorem outtmpl_per_job (fs : gset string) (job_id : string) (fo : format_opts) :
  has_char slash job_id = false ->
  exists tmpl,
    dict_get "outtmpl" (download_ydl_opts fs job_id fo) = Some (VStr tmpl) /\
    tmpl = path_join DOWNLOAD_FOLDER (job_id +:+ "_%(title)s.%(ext)s") /\
    basename tmpl = job_id +:+ "_%(title)s.%(ext)s" /\
    forall fs' job_id' fo',
      has_char slash job_id' = false ->
      dict_get "outtmpl" (download_ydl_opts fs' job_id' fo') = Some (VStr tmpl) ->
      job_id' = job_id.
Proof.
  intros Hno.
  assert (Hsuffix : forall id, has_char slash id = false ->
            has_char slash (id +:+ "_%(title)s.%(ext)s") = false).
  { intros id. induction id as [|c id IH]; [done|]. simpl.
    intros [-> ?]%orb_false_elim. by apply IH. }
  eexists. split; [reflexivity|]. split; [done|].
  split; [by apply basename_join, Hsuffix|].
  intros fs' job_id' fo' Hno' Heq. simpl in Heq. injection Heq as Heq.
  apply (f_equal basename) in Heq.
  rewrite !basename_join in Heq by by apply Hsuffix.
  by apply append_cancel_r in Heq.
Qed.

(** ** More on the job store along the interleavings *)

Lemma str_remove_absent (c : ascii) (s : string) :
  has_char c (str_remove c s) = false.
Proof.
  induction s as [|a s IH]; [done|]. simpl.
  destruct (Ascii.eqb a c) eqn:Ha; [done|]. simpl. by rewrite Ha.
Qed.

(** X4: every record of a reachable state has one of the five shapes the
    code writes: status, message and progress go together, and the
    percentage shown in a 'downloading' message is the text that was
    parsed, free of '%'. *)
Theorem reachable_record_shape (tr : list action) (st : system)
    (k : string) (j : job) :
  run initial tr = Some st ->
  jobs st !! k = Some j ->
  (status j = "starting" /\ text j = Some "Starting process..." /\
   progress j = Finite 0 /\ filename j = None) \/
  (status j = "downloading" /\ filename j = None /\
   exists p, text j = Some ("Downloading... " +:+ p +:+ "%") /\
             progress j = float_or_zero p /\ has_char "%" p = false) \/
  (status j = "processing" /\ text j = Some "Processing with ffmpeg..." /\
   progress j = Finite 100 /\ filename j = None) \/
  (status j = "completed" /\ text j = Some "Finished!" /\
   progress j = Finite 100 /\ is_Some (filename j)) \/
  (status j = "error" /\ progress j = Finite 0 /\ filename j = None /\
   exists msg, text j = Some ("Error: " +:+ msg)).
Proof.
  intros Hrun. revert k j.
  apply (run_records _ tr initial st Hrun).
  - intros k j. simpl. by rewrite lookup_empty.
  - intros st1 a k j _ Hw.
    destruct a
      as [now fresh rq|now job_id d|now job_id o|now removable|fs
         |now job_id raised];
      simpl in Hw; try done.
    + destruct (truthy (rq_url rq)); simplify_eq. by left.
    + destruct (String.eqb (ev_status d) "downloading");
        [|destruct (String.eqb (ev_status d) "finished")]; simplify_eq.
      * right; left. do 2 (split; [done|]). exists (percent_text d).
        do 2 (split; [done|]). apply str_remove_absent.
      * right; right; left. done.
    + destruct (workers st1 !! job_id) as [w|]; [|done].
      destruct o as [prepared|msg]; simplify_eq.
      * right; right; right; left. by repeat split.
      * right; right; right; right. do 3 (split; [done|]). by exists msg.
    + destruct raised as [msg|]; [|done].
      case_bool_decide; simplify_eq.
      right; right; right; right. do 3 (split; [done|]). by exists msg.
Qed.

(** X5: an action of the dispatcher or of a worker touches the record and
    the thread of its own job only. *)
Theorem other_jobs_untouched (st st' : system) (a : action)
    (job_id k : string) :
  step st a = Some st' ->
  target a = Some job_id ->
  k <> job_id ->
  jobs st' !! k = jobs st !! k /\ workers st' !! k = workers st !! k /\
  files st' = files st.
Proof.
  intros Hstep Ht Hne.
  destruct a
    as [now fresh rq|now id d|now id o|now removable|fs|now id raised];
    simpl in Ht, Hstep; simplify_eq.
  - case_bool_decide; [done|]. simplify_eq. unfold start_download.
    destruct (truthy (rq_url rq)); simpl; [|done].
    unfold update_job_status. by rewrite !lookup_insert_ne.
  - destruct (workers st !! job_id); simplify_eq. simpl.
    split; [|done]. unfold progress_hook, update_job_status.
    destruct (String.eqb (ev_status d) "downloading");
      [|destruct (String.eqb (ev_status d) "finished")];
      by rewrite ?lookup_insert_ne.
  - destruct (workers st !! job_id); simplify_eq. simpl.
    rewrite lookup_delete_ne by done. split; [|done].
    unfold download_task_finish, update_job_status.
    destruct o; by rewrite lookup_insert_ne.
  - case_bool_decide; simplify_eq. simpl. split; [|done].
    unfold download_task_exit, update_job_status.
    destruct raised; by rewrite ?lookup_insert_ne.
Qed.

(** X6: in a reachable state a dispatch never overwrites the record of an
    existing job: the new job gets a record of its own. *)
Theorem dispatch_keeps_records (tr : list action) (st st' : system)
    (now : Q) (fresh : string) (rq : request) (k : string) (j : job) :
  run initial tr = Some st ->
  step st (Dispatch now fresh rq) = Some st' ->
  jobs st !! k = Some j ->
  k <> fresh /\ jobs st' !! k = Some j.
Proof.
  intros Hrun Hstep Hk.
  pose proof (run_consistent tr _ _ initial_consistent Hrun)
    as (Hjobs & _ & _).
  assert (Hne : k <> fresh).
  { intros ->. simpl in Hstep. case_bool_decide as Hin; [done|].
    apply Hin, Hjobs. by eexists. }
  split; [done|]. simpl in Hstep. case_bool_decide; [done|]. simplify_eq.
  unfold start_download. destruct (truthy (rq_url rq)); simpl; [|done].
  unfold update_job_status. by rewrite lookup_insert_ne.
Qed.

Lemma step_issued (st st' : system) (a : action) (k : string) :
  step st a = Some st' -> k ∈ issued st' ->
  k ∈ issued st \/ k ∈ dispatched_ids [a].
Proof.
  destruct a
    as [now fresh rq|now id d|now id o|now removable|fs|now id raised];
    simpl.
  - case_bool_decide; [done|]. intros [= <-]. unfold start_download.
    destruct (truthy (rq_url rq)); simpl; [|by left].
    intros [->%elem_of_singleton|Hin]%elem_of_union; [right|by left].
    by apply list_elem_of_singleton.
  - destruct (workers st !! id); [|done]. intros [= <-]. by left.
  - destruct (workers st !! id); [|done]. intros [= <-]. by left.
  - destruct (cleanup_cycle_shrinks now removable st)
      as (st1 & -> & _ & Hi & _).
    intros [= <-]. rewrite Hi. by left.
  - intros [= <-]. by left.
  - case_bool_decide; [|done]. intros [= <-]. by left.
Qed.

Lemma run_issued (tr : list action) :
  forall (st st' : system) (k : string),
    run st tr = Some st' -> k ∈ issued st' ->
    k ∈ issued st \/ k ∈ dispatched_ids tr.
Proof.
  induction tr as [|a tr IH]; intros st st' k Hrun Hk; simpl in Hrun.
  - simplify_eq. by left.
  - destruct (step st a) as [st1|] eqn:Hstep; [|done].
    destruct (IH st1 st' k Hrun Hk) as [Hin|Hin].
    + destruct (step_issued st st1 a k Hstep Hin) as [?|Ha]; [by left|].
      right. unfold dispatched_ids in *. simpl in *.
      destruct a; try (by apply not_elem_of_nil in Ha).
      destruct (truthy (rq_url rq)); [|by apply not_elem_of_nil in Ha].
      apply list_elem_of_singleton in Ha as ->. by left.
    + right. unfold dispatched_ids in *. simpl.
      destruct a; try done. destruct (truthy (rq_url rq)); [by right|done].
Qed.

(** X7: an identifier that no accepted call of [start_download] handed out
    has no record: polling it and fetching its file both answer 404. *)
Theorem unknown_job_not_found (tr : list action) (st : system) (k : string) :
  run initial tr = Some st ->
  k ∉ dispatched_ids tr ->
  get_status k st = Error 404 "Job not found" /\
  download_file k st = Error 404 "File not ready".
Proof.
  intros Hrun Hk.
  pose proof (run_consistent tr _ _ initial_consistent Hrun)
    as (Hjobs & _ & _).
  assert (Hnone : jobs st !! k = None).
  { destruct (jobs st !! k) as [j|] eqn:Hj; [exfalso|done].
    destruct (run_issued tr initial st k Hrun) as [Hin|Hin]; [|set_solver|done].
    apply Hjobs. by eexists. }
  unfold get_status, download_file. by rewrite Hnone.
Qed.


(** ** More on the sweeper *)

(** A pass, record by record and file by file. *)
Lemma cleanup_cycle_exact (now : Q) (removable : string -> bool)
    (st : system) :
  exists st',
    cleanup_cycle now removable st = inr st' /\
    workers st' = workers st /\ issued st' = issued st /\
    (forall k,
       jobs st' !! k =
         match jobs st !! k with
         | Some j => if expired now j then None else Some j
         | None => None
         end) /\
    (forall p,
       p ∈ files st' <->
       p ∈ files st /\
       ~ exists k j, jobs st !! k = Some j /\ doomed now removable j p).
Proof.
  destruct (cleanup_fold now removable (snapshot (jobs st)) st)
    as (st' & Hrun & Hw & Hi & Hjobs & Hfiles).
  { apply snapshot_NoDup. }
  { intros k. by rewrite elem_of_snapshot. }
  exists st'. do 3 (split; [done|]). split.
  - intros k. rewrite Hjobs. destruct (jobs st !! k) as [j|] eqn:Hk; [|done].
    by rewrite bool_decide_eq_true_2 by (apply elem_of_snapshot; by exists j).
  - intros p. rewrite Hfiles. apply and_iff_compat_l, not_iff_compat. split.
    + intros (k & j & _ & Hk & Hd). by exists k, j.
    + intros (k & j & Hk & Hd). exists k, j.
      split; [apply elem_of_snapshot; by exists j|done].
Qed.

(** With nothing expired the loop of a pass changes nothing. *)
Lemma cleanup_fold_noop (now : Q) (removable : string -> bool)
    (st : system) (l : list string) :
  (forall k, k ∈ l -> is_Some (jobs st !! k)) ->
  (forall k j, jobs st !! k = Some j -> expired now j = false) ->
  try_fold (cleanup_job now removable) st l = inr st.
Proof.
  intros Hin Hfresh. induction l as [|k l IH]; [done|].
  cbn [try_fold]. unfold cleanup_job at 1.
  destruct (Hin k) as [j Hj]; [by left|].
  rewrite Hj, (Hfresh k j Hj). simpl. apply IH.
  intros k' Hk'. apply Hin. by right.
Qed.

(** X9: a second pass at the same instant finds nothing left to do, whatever
    [os.remove] answers then. *)
Theorem cleanup_cycle_idempotent (now : Q) (removable removable' : string -> bool)
    (st st' : system) :
  cleanup_cycle now removable st = inr st' ->
  cleanup_cycle now removable' st' = inr st'.
Proof.
  intros Hrun.
  destruct (cleanup_cycle_exact now removable st)
    as (st1 & Hrun1 & _ & _ & Hjobs & _).
  rewrite Hrun in Hrun1. injection Hrun1 as <-.
  apply cleanup_fold_noop.
  - intros k. by rewrite elem_of_snapshot.
  - intros k j. rewrite Hjobs. destruct (jobs st !! k) as [j'|]; [|done].
    destruct (expired now j') eqn:He; [done|]. by intros [= <-].
Qed.

(** X10: the loop of [cleanup] is a sequence of sweeps of the process, each
    followed by a sleep of 300 seconds. *)
Theorem cleanup_runs_sweeps (oracle : list (Q * (string -> bool))) :
  forall st : system,
  exists st',
    cleanup oracle st =
      inr (st', replicate (List.length oracle) cleanup_sleep) /\
    run st ((fun p => Sweep p.1 p.2) <$> oracle) = Some st'.
Proof.
  induction oracle as [|[now removable] oracle IH]; intros st.
  - by exists st.
  - destruct (cleanup_cycle_shrinks now removable st) as (st1 & Hst1 & _).
    destruct (IH st1) as (st2 & Hloop & Hrun).
    exists st2. simpl. rewrite Hst1. simpl. by rewrite Hloop.
Qed.

(** What a step does to a job whose thread has ended. *)
Lemma step_quiet (k : string) (st st' : system) (a : action) :
  step st a = Some st' ->
  k ∈ issued st -> workers st !! k = None -> k ∉ closing st ->
  k ∈ issued st' /\ workers st' !! k = None /\ (k ∉ closing st') /\
  match a with
  | Sweep now _ =>
      jobs st' !! k =
        match jobs st !! k with
        | Some j => if expired now j then None else Some j
        | None => None
        end
  | _ => jobs st' !! k = jobs st !! k
  end.
Proof.
  intros Hstep Hin Hnone Hnc.
  pose proof (step_workers st st' a k Hstep) as [Hsub Hwk].
  pose proof (step_closing st st' a Hstep) as Hcl.
  split; [by apply Hsub|].
  destruct a
    as [now fresh rq|now job_id d|now job_id o|now removable|fs
       |now job_id raised];
    simpl in Hstep.
  - case_bool_decide as Hfresh; [done|]. simplify_eq.
    assert (k <> fresh) by (by intros ->).
    unfold start_download. destruct (truthy (rq_url rq)); simpl; [|done].
    unfold update_job_status. by rewrite !lookup_insert_ne.
  - destruct (workers st !! job_id) as [w|] eqn:Hw; simplify_eq. simpl.
    do 2 (split; [done|]).
    assert (k <> job_id) by (intros ->; congruence).
    unfold progress_hook, update_job_status.
    destruct (String.eqb (ev_status d) "downloading");
      [|destruct (String.eqb (ev_status d) "finished")];
      by rewrite ?lookup_insert_ne.
  - destruct (workers st !! job_id) as [w|] eqn:Hw; simplify_eq. simpl.
    assert (k <> job_id) by (intros ->; congruence).
    rewrite lookup_delete_ne by done. split; [done|]. split.
    + destruct o; [|done]. set_solver.
    + unfold download_task_finish, update_job_status.
      destruct o; by rewrite lookup_insert_ne.
  - destruct (cleanup_cycle_exact now removable st)
      as (st1 & Hrun & Hw & _ & Hjobs & _).
    rewrite Hrun in Hstep. simplify_eq. rewrite Hw, Hcl. done.
  - by simplify_eq.
  - case_bool_decide as Hc; simplify_eq. simpl.
    split; [done|]. split; [set_solver|].
    assert (k <> job_id) by (by intros ->).
    unfold download_task_exit, update_job_status.
    destruct raised; by rewrite ?lookup_insert_ne.
Qed.

(** Along a run, the record of a job whose thread has ended stays or goes;
    it stays when every sweep comes within the hour of its time stamp. *)
Lemma run_quiet (k : string) (o : option job) (tr : list action) :
  forall st st' : system,
    run st tr = Some st' ->
    k ∈ issued st -> workers st !! k = None -> k ∉ closing st ->
    jobs st !! k = o \/ jobs st !! k = None ->
    k ∈ issued st' /\ workers st' !! k = None /\ (k ∉ closing st') /\
    (jobs st' !! k = o \/ jobs st' !! k = None) /\
    ((forall now removable j,
        Sweep now removable ∈ tr -> o = Some j -> expired now j = false) ->
     jobs st !! k = o -> jobs st' !! k = o).
Proof.
  induction tr as [|a tr IH]; intros st st' Hrun Hin Hnone Hnc Hrec;
    simpl in Hrun.
  - by simplify_eq.
  - destruct (step st a) as [st1|] eqn:Hstep; [|done].
    destruct (step_quiet k st st1 a Hstep Hin Hnone Hnc)
      as (Hin1 & Hnone1 & Hnc1 & Hj1).
    assert (Hrec1 : jobs st1 !! k = o \/ jobs st1 !! k = None).
    { destruct a; try (by rewrite Hj1).
      rewrite Hj1. destruct Hrec as [-> | ->]; [|by right].
      destruct o as [j|]; [|by right]. destruct (expired now j); tauto. }
    destruct (IH st1 st' Hrun Hin1 Hnone1 Hnc1 Hrec1)
      as (? & ? & ? & ? & Hkeep).
    do 4 (split; [done|]).
    intros Hsweeps Ho. apply Hkeep.
    + intros now removable j Hs. apply (Hsweeps now removable). by right.
    + destruct a; try (by rewrite Hj1).
      rewrite Hj1, Ho. destruct o as [j|]; [|done].
      by rewrite (Hsweeps now removable j) by (done || by left).
Qed.

Lemma run_app (tr1 tr2 : list action) :
  forall st st' : system,
    run st (tr1 ++ tr2)%list = Some st' <->
    exists st1, run st tr1 = Some st1 /\ run st1 tr2 = Some st'.
Proof.
  induction tr1 as [|a tr1 IH]; intros st st'; simpl.
  - split; [by exists st|]. by intros (st1 & [= <-] & ?).
  - destruct (step st a) as [st1|]; [apply IH|].
    split; [done|]. by intros (? & ? & _).
Qed.

Lemma expired_iff (now : Q) (j : job) :
  expired now j = true <-> (3600 < now - timestamp j)%Q.
Proof.
  unfold expired. rewrite negb_true_iff, <- not_true_iff_false.
  rewrite Qle_bool_iff. split; [apply Qnot_le_lt|apply Qlt_not_le].
Qed.

(** The thread of a job with a terminal record has ended once it has left
    its [with] block; after an 'error' write it always has. *)
Lemma terminal_thread_ended (tr : list action) (st : system) (k : string)
    (j : job) :
  run initial tr = Some st ->
  jobs st !! k = Some j ->
  terminal j ->
  (status j = "completed" -> k ∉ closing st) ->
  k ∈ issued st /\ workers st !! k = None /\ (k ∉ closing st).
Proof.
  intros Hrun Hk Hterminal Hleft.
  pose proof (run_consistent tr _ _ initial_consistent Hrun)
    as (Hjobs & _ & Hterm & _ & Herror).
  split; [apply Hjobs; by eexists|]. split; [by eapply Hterm|].
  destruct Hterminal as [Hc|He]; [by apply Hleft|by eapply Herror].
Qed.

(** X11: a finished job whose thread has ended stays available for an hour:
    as long as every pass of the sweeper that begins afterwards comes within
    3600 seconds of its final write, polling returns its record.  (Such a
    pass finds the same record at each of its reads of the store, since
    nothing writes it any more; a pass already under way when the record
    is written is not covered.) *)
Theorem terminal_record_retained (tr tr' : list action) (st st' : system)
    (k : string) (j : job) :
  run initial tr = Some st ->
  jobs st !! k = Some j ->
  terminal j ->
  (status j = "completed" -> k ∉ closing st) ->
  run st tr' = Some st' ->
  (forall now removable,
     Sweep now removable ∈ tr' -> (now - timestamp j <= 3600)%Q) ->
  get_status k st' = JobRecord 200 j.
Proof.
  intros Hrun Hk Hterminal Hleft Hrun' Hsweeps.
  destruct (terminal_thread_ended tr st k j Hrun Hk Hterminal Hleft)
    as (Hin & Hnone & Hnc).
  destruct (run_quiet k (Some j) tr' st st' Hrun' Hin Hnone Hnc)
    as (_ & _ & _ & _ & Hkeep); [by left|].
  unfold get_status. rewrite Hkeep; [done| |done].
  intros now removable j' Hs [= <-].
  destruct (expired now j) eqn:He; [|done].
  apply expired_iff, Qlt_not_le in He. destruct He. by eapply Hsweeps.
Qed.

(** X12: a pass of the sweeper that comes more than 3600 seconds after the
    final write of a job whose thread has ended removes its record for
    good: from then on polling and fetching answer 404, whatever happens
    next. *)
Theorem expired_record_gone (tr tr1 tr2 : list action) (st st' : system)
    (k : string) (j : job) (now : Q) (removable : string -> bool) :
  run initial tr = Some st ->
  jobs st !! k = Some j ->
  terminal j ->
  (status j = "completed" -> k ∉ closing st) ->
  (3600 < now - timestamp j)%Q ->
  run st (tr1 ++ Sweep now removable :: tr2)%list = Some st' ->
  get_status k st' = Error 404 "Job not found" /\
  download_file k st' = Error 404 "File not ready".
Proof.
  intros Hrun Hk Hterminal Hleft Hold Hrun'.
  destruct (terminal_thread_ended tr st k j Hrun Hk Hterminal Hleft)
    as (Hin & Hnone & Hnc).
  apply run_app in Hrun' as (st1 & Hrun1 & Hrun2). cbn [run] in Hrun2.
  destruct (step st1 (Sweep now removable)) as [st2|] eqn:Hstep; [|done].
  destruct (run_quiet k (Some j) tr1 st st1 Hrun1 Hin Hnone Hnc)
    as (Hin1 & Hnone1 & Hnc1 & Hrec1 & _); [by left|].
  destruct (step_quiet k st1 st2 _ Hstep Hin1 Hnone1 Hnc1)
    as (Hin2 & Hnone2 & Hnc2 & Hj2).
  assert (Hgone : jobs st2 !! k = None).
  { rewrite Hj2. destruct Hrec1 as [-> | ->]; [|done].
    apply expired_iff in Hold. by rewrite Hold. }
  destruct (run_quiet k None tr2 st2 st' Hrun2 Hin2 Hnone2 Hnc2)
    as (_ & _ & _ & Hend & _); [by left|].
  assert (Hnone' : jobs st' !! k = None) by (by destruct Hend).
  unfold get_status, download_file. by rewrite Hnone'.
Qed.

(** X21: an 'error' record is final, and a 'completed' record is final once
    its thread has left the [with] block: no later action writes the record,
    and a poll answers with that very record until a pass of the sweeper has
    removed it. *)
Theorem ended_job_frozen (tr tr' : list action) (st st' : system)
    (k : string) (j : job) :
  run initial tr = Some st ->
  jobs st !! k = Some j ->
  terminal j ->
  (status j = "completed" -> k ∉ closing st) ->
  run st tr' = Some st' ->
  (k ∉ written_ids st tr') /\
  (jobs st' !! k = Some j /\ get_status k st' = JobRecord 200 j \/
   jobs st' !! k = None /\ get_status k st' = Error 404 "Job not found").
Proof.
  intros Hrun Hk Hterminal Hleft Hrun'.
  destruct (terminal_thread_ended tr st k j Hrun Hk Hterminal Hleft)
    as (Hin & Hnone & Hnc).
  destruct (run_frozen k j tr' st st' Hrun' Hin Hnone Hnc) as [Hend Hids];
    [by left|].
  split; [done|]. unfold get_status.
  destruct Hend as [Hend|Hend]; rewrite Hend; [by left|by right].
Qed.

(** ** More on the dispatcher, the worker and the sweeper together *)

(** X13: whatever the request, the worker hands yt-dlp a format selector
    that ends in the fallback "/best" (never the default 'best' of
    [format_opts.get]), a list of post-processors (never [None]) and the
    progress hook of its own job; only an 'audio' request marks the job as
    audio and asks for the mp3 extraction. *)
Theorem worker_options_of_request (fs : gset string) (job_id : string)
    (rq : request) :
  let fo := choose_format_opts (rq_type rq) (rq_format_id rq) in
  let opts := download_ydl_opts fs job_id fo in
  exists sel pps,
    dict_get "format" opts = Some (VStr (sel +:+ "/best")) /\
    dict_get "postprocessors" opts = Some (VList pps) /\
    dict_get "progress_hooks" opts = Some (VList [VHook job_id]) /\
    (rq_type rq = Some "audio" ->
     sel = "bestaudio" /\ fo_is_audio fo = Some true /\
     pps = [VDict [("key", VStr "FFmpegExtractAudio");
                   ("preferredcodec", VStr "mp3");
                   ("preferredquality", VStr "192")]]) /\
    (rq_type rq <> Some "audio" ->
     fo_is_audio fo = None /\ pps = [] /\
     match rq_format_id rq with
     | Some (String c id) => sel = String c id +:+ "+bestaudio"
     | _ => sel = "bestvideo+bestaudio"
     end).
Proof.
  unfold choose_format_opts. case_bool_decide as Haudio.
  - exists "bestaudio". eexists. repeat split; done.
  - destruct (rq_format_id rq) as [[|c id]|]; simpl.
    + exists "bestvideo+bestaudio", []. repeat split; done.
    + exists (String c id +:+ "+bestaudio"), [].
      split; [|repeat split; done].
      by rewrite (append_assoc (String c id) "+bestaudio" "/best").
    + exists "bestvideo+bestaudio", []. repeat split; done.
Qed.

(** X14: a progress report refreshes the time stamp, so a job that reported
    within the last 3600 seconds survives a sweep with the record the hook
    wrote. *)
Theorem reported_job_survives_sweep (st st1 st2 : system) (now now' : Q)
    (k : string) (d : event) (removable : string -> bool) :
  step st (Progress now k d) = Some st1 ->
  ev_status d = "downloading" \/ ev_status d = "finished" ->
  (now' - now <= 3600)%Q ->
  step st1 (Sweep now' removable) = Some st2 ->
  exists j,
    jobs st1 !! k = Some j /\ timestamp j = now /\ jobs st2 !! k = Some j.
Proof.
  intros Hhook Hd Hrecent Hsweep.
  assert (Hj : exists j, jobs st1 !! k = Some j /\ timestamp j = now).
  { simpl in Hhook. destruct (workers st !! k); simplify_eq. simpl.
    unfold progress_hook, update_job_status.
    destruct Hd as [-> | ->]; simpl; rewrite lookup_insert_eq; by eexists. }
  destruct Hj as (j & Hj & Hts). exists j. do 2 (split; [done|]).
  simpl in Hsweep.
  destruct (cleanup_cycle_exact now' removable st1)
    as (st' & Hrun & _ & _ & Hjobs & _).
  rewrite Hrun in Hsweep. simplify_eq. rewrite Hjobs, Hj.
  destruct (expired now' j) eqn:He; [|done].
  apply expired_iff, Qlt_not_le in He. by destruct He.
Qed.

(** X15: the sweeper does not look at the threads.  A job whose worker has
    been silent for more than 3600 seconds loses its record while the
    worker runs on (polling answers 404), and the worker's final write
    puts a record back. *)
Theorem silent_job_swept_then_rewritten (st st1 : system) (now now' : Q)
    (k : string) (w : worker) (j : job) (removable : string -> bool)
    (o : outcome) :
  workers st !! k = Some w ->
  jobs st !! k = Some j ->
  (3600 < now - timestamp j)%Q ->
  step st (Sweep now removable) = Some st1 ->
  get_status k st1 = Error 404 "Job not found" /\
  workers st1 !! k = Some w /\
  exists st2 j',
    step st1 (Finish now' k o) = Some st2 /\
    get_status k st2 = JobRecord 200 j' /\ terminal j' /\
    timestamp j' = now'.
Proof.
  intros Hw Hj Hold Hsweep. simpl in Hsweep.
  destruct (cleanup_cycle_exact now removable st)
    as (st' & Hrun & Hws & _ & Hjobs & _).
  rewrite Hrun in Hsweep. simplify_eq.
  apply expired_iff in Hold.
  assert (Hgone : jobs st1 !! k = None) by (by rewrite Hjobs, Hj, Hold).
  split; [unfold get_status; by rewrite Hgone|].
  split; [by rewrite Hws|].
  simpl. rewrite Hws, Hw.
  unfold get_status, download_task_finish, update_job_status.
  destruct o; eexists _, _; (split; [reflexivity|]); simpl;
    rewrite lookup_insert_eq; (split; [reflexivity|]); (split; [|done]);
    [by left|by right].
Qed.

(** ** More on the format listing *)

(** X17: the listing has at most six entries, and it is empty exactly when
    no video format of yt-dlp has one of the six resolutions. *)
Theorem get_formats_listing_size
    (extract_info : list (string * pyval) -> string -> result info)
    (fs : gset string) (url : string) (i : info) :
  url <> "" ->
  extract_info (formats_ydl_opts fs) url = inr i ->
  exists out,
    get_formats extract_info fs (Some url) =
      Listing 200 (i_title i) (i_thumbnail i) out /\
    (List.length out <= 6)%nat /\
    (out = [] <->
     forall f h, f ∈ default [] (i_formats i) -> ~ video_at f h).
Proof.
  intros Hurl Hinfo.
  destruct (list_formats_ok i)
    as (out & Hout & hs & Hq & Hres & Hsorted & Hcov & _).
  exists out. split.
  { unfold get_formats. destruct url; [done|]. simpl.
    rewrite Hinfo. simpl. by rewrite Hout. }
  assert (Hlen : List.length out = List.length hs).
  { apply (f_equal List.length) in Hq. by rewrite !length_fmap in Hq. }
  split.
  - rewrite Hlen.
    change 6%nat with (List.length resolutions).
    apply submseteq_length, NoDup_submseteq; [by apply descending_NoDup|].
    by apply Forall_forall.
  - split.
    + intros -> f h Hf Hv. destruct hs; [|done].
      assert (Hh : h ∈ @nil Z) by (apply Hcov; by exists f).
      by apply not_elem_of_nil in Hh.
    + intros Hnone. destruct hs as [|h hs]; [by destruct out|].
      destruct (proj1 (Hcov h)) as (f & Hf & Hv); [by left|].
      by destruct (Hnone f h).
Qed.

(** *** Which format is listed *)

(** The sort is stable: the pairs of a key keep their order. *)
Lemma insert_desc_filter (h : Z) (x : Z * candidate)
    (l : list (Z * candidate)) :
  filter (fun p => p.1 = h) (insert_desc x l) =
  filter (fun p => p.1 = h) (x :: l).
Proof.
  induction l as [|y l IH]; [done|]. simpl.
  case_bool_decide as Hlt; [|done].
  rewrite filter_cons, IH, !filter_cons.
  repeat case_decide; try done. lia.
Qed.

Lemma sort_desc_filter (h : Z) (l : list (Z * candidate)) :
  filter (fun p => p.1 = h) (sort_desc l) = filter (fun p => p.1 = h) l.
Proof.
  induction l as [|x l IH]; [done|]. simpl.
  by rewrite insert_desc_filter, !filter_cons, IH.
Qed.

(** On pairs of a key and a filed candidate of that key, selecting a
    quality is selecting its key. *)
Lemma at_quality_keys (c0 : candidate) (zl : list (Z * candidate)) :
  filed c0 ->
  Forall (fun p => p.1 = res_of p.2 /\ filed p.2) zl ->
  at_quality (c_quality c0) zl.*2 =
  (filter (fun p => p.1 = res_of c0) zl).*2.
Proof.
  intros Hc0. unfold at_quality.
  induction 1 as [|p zl [Hkey Hp] _ IH]; [done|].
  rewrite fmap_cons, !filter_cons, IH.
  case_decide as Hq; case_decide as Hk; try done.
  - destruct Hk. rewrite Hkey. by apply res_of_quality.
  - destruct Hq. apply filed_quality_inj; [done..|]. by rewrite <- Hkey.
Qed.

Lemma sort_by_quality_stable (l l' : list candidate) (c0 : candidate) :
  Forall filed l -> filed c0 ->
  sort_by_quality l = ok l' ->
  at_quality (c_quality c0) l' = at_quality (c_quality c0) l.
Proof.
  intros Hl Hc0. unfold sort_by_quality. rewrite (try_map_keys l Hl). simpl.
  intros [= <-].
  assert (Hpairs : Forall (fun p => p.1 = res_of p.2 /\ filed p.2)
                     (zip (res_of <$> l) l)).
  { clear Hc0. induction Hl; simpl; by constructor. }
  rewrite at_quality_keys; [|done|by rewrite sort_desc_perm].
  rewrite sort_desc_filter, <- at_quality_keys by done.
  by rewrite snd_zip by (by rewrite length_fmap).
Qed.

Lemma preferred_snoc (l : list candidate) (g f : candidate) :
  preferred l = Some g ->
  preferred (l ++ [f])%list =
    Some (if (c_has_audio f && negb (c_has_audio g))%bool then f else g).
Proof.
  unfold preferred. rewrite filter_app.
  destruct (filter (fun c => c_has_audio c = true) l) as [|c r] eqn:Hfl.
  - intros Hhead. destruct l as [|g' l]; simplify_eq/=.
    assert (Hg : c_has_audio g = false).
    { destruct (c_has_audio g) eqn:Hg; [|done].
      rewrite filter_cons in Hfl. by rewrite decide_True in Hfl. }
    rewrite Hg, andb_true_r, filter_cons.
    destruct (c_has_audio f); by simplify_option_eq.
  - intros [= ->]. simpl.
    assert (Hg : c_has_audio g = true).
    { assert (Hin : g ∈ filter (fun c => c_has_audio c = true) l)
        by (rewrite Hfl; by left).
      by apply list_elem_of_filter in Hin as [? _]. }
    by rewrite Hg, andb_false_r.
Qed.

Lemma at_quality_snoc (q : string) (l : list candidate) (f : candidate) :
  at_quality q (l ++ [f])%list =
  if decide (c_quality f = q) then (at_quality q l ++ [f])%list
  else at_quality q l.
Proof.
  unfold at_quality. rewrite filter_app, filter_cons, filter_nil.
  case_decide; [done|]. by rewrite app_nil_r.
Qed.

Lemma at_quality_none (q : string) (l : list candidate) :
  (forall p, p ∈ l -> c_quality p <> q) -> at_quality q l = [].
Proof.
  unfold at_quality. induction l as [|p l IH]; intros Hl; [done|].
  rewrite filter_cons, decide_False by (apply Hl; by left).
  apply IH. intros p' Hp'. apply Hl. by right.
Qed.

(** Two positions of [unique_formats] with the same quality are one. *)
Lemma dedup_inv_index (seen U : list candidate) (S : gmap string candidate)
    (i j : nat) (c1 c2 : candidate) :
  dedup_inv seen U S -> U !! i = Some c1 -> U !! j = Some c2 ->
  c_quality c1 = c_quality c2 -> i = j.
Proof.
  intros (_ & _ & Hsorted%descending_NoDup & _) Hi Hj Hq.
  apply (NoDup_lookup _ i j (res_of c1) Hsorted).
  - by rewrite list_lookup_fmap, Hi.
  - rewrite list_lookup_fmap, Hj. simpl. f_equal.
    symmetry. by apply res_of_quality.
Qed.

Lemma dedup_step_picks (seen U U' : list candidate)
    (S S' : gmap string candidate) (f : candidate) :
  dedup_inv seen U S -> picks seen U ->
  dedup_step (U, S) f = ok (U', S') ->
  picks (seen ++ [f])%list U'.
Proof.
  intros Hinv Hpick Hstep.
  pose proof Hinv as (Hidx & Hcov & _ & _ & Hrep).
  unfold dedup_step in Hstep.
  destruct (S !! c_quality f) as [g|] eqn:Hq.
  - destruct (Hidx _ _ Hq) as [Hg Hgq].
    destruct (c_has_audio f && negb (c_has_audio g))%bool eqn:Hprefer.
    + destruct (list_find _ U) as [[idx x]|] eqn:Hfind; [|done].
      injection Hstep as <- <-.
      apply list_find_Some in Hfind as (Hx & Hxq & _).
      assert (x = g) as ->
        by (eapply dedup_inv_unique;
            [done|by eapply list_elem_of_lookup_2|done|congruence]).
      intros c [i Hi]%list_elem_of_lookup.
      apply list_lookup_insert_Some in Hi as [(-> & <- & _)|[Hne Hi]].
      * rewrite at_quality_snoc, decide_True by done.
        rewrite <- Hgq. rewrite (preferred_snoc _ g f) by by apply Hpick.
        by rewrite Hprefer.
      * rewrite at_quality_snoc, decide_False.
        { apply Hpick. by eapply list_elem_of_lookup_2. }
        intros Heq. apply Hne.
        eapply (dedup_inv_index seen U S idx i g c); [done..|congruence].
    + injection Hstep as <- <-. intros c Hc.
      rewrite at_quality_snoc. case_decide as Heq; [|by apply Hpick].
      assert (c = g) as ->
        by (eapply dedup_inv_unique; [done..|congruence]).
      rewrite (preferred_snoc _ g f) by by apply Hpick.
      by rewrite Hprefer.
  - injection Hstep as <- <-.
    intros c [Hc| ->%list_elem_of_singleton]%elem_of_app.
    + rewrite at_quality_snoc, decide_False; [by apply Hpick|].
      intros Heq. destruct (Hcov c Hc) as [g Hg]. congruence.
    + rewrite at_quality_snoc, decide_True by done.
      assert (Hnil : at_quality (c_quality f) seen = []).
      { apply at_quality_none. intros p Hp Hpq.
        destruct (Hrep p Hp) as (c & Hc & Hcq & _).
        destruct (Hcov c Hc) as [g Hg]. congruence. }
      rewrite Hnil. unfold preferred. simpl. rewrite filter_cons.
      by destruct (c_has_audio f); simplify_option_eq.
Qed.

Lemma dedup_loop_picks (rest : list candidate) :
  forall (seen U U' : list candidate) (S S' : gmap string candidate),
    dedup_inv seen U S -> picks seen U ->
    Forall filed (seen ++ rest)%list ->
    StronglySorted res_ge (seen ++ rest)%list ->
    try_fold dedup_step (U, S) rest = ok (U', S') ->
    picks (seen ++ rest)%list U'.
Proof.
  induction rest as [|f rest IH];
    intros seen U U' S S' Hinv Hpick Hfiled Hsorted Hloop.
  - injection Hloop as <- <-. by rewrite app_nil_r.
  - replace (seen ++ f :: rest)%list with ((seen ++ [f]) ++ rest)%list in *
      by (by rewrite <- app_assoc).
    destruct (dedup_step_inv seen U S f Hinv) as (U1 & S1 & Hstep & Hinv1).
    + by apply Forall_app in Hfiled as [Hfiled _].
    + intros c Hc. apply StronglySorted_app_1_l in Hsorted.
      apply (StronglySorted_app_1_elem_of _ _ _ c f) in Hsorted;
        [done|done|by apply list_elem_of_singleton].
    + cbn [try_fold] in Hloop. rewrite Hstep in Hloop.
      eapply (IH _ U1 U' S1 S'); try done.
      by eapply dedup_step_picks.
Qed.

(** X18: which format a resolution is listed with: the first candidate with
    audio of that quality in yt-dlp's order, or the first candidate of it
    when none has audio. *)
Theorem get_formats_lists_preferred
    (extract_info : list (string * pyval) -> string -> result info)
    (fs : gset string) (url : string) (i : info) :
  url <> "" ->
  extract_info (formats_ydl_opts fs) url = inr i ->
  exists out,
    get_formats extract_info fs (Some url) =
      Listing 200 (i_title i) (i_thumbnail i) out /\
    forall e, e ∈ out ->
      exists c,
        preferred
          (at_quality (l_quality e)
             (omap candidate_of (default [] (i_formats i)))) = Some c /\
        e = render c.
Proof.
  intros Hurl Hinfo.
  set (cands := omap candidate_of (default [] (i_formats i))).
  assert (Hfiled : Forall filed cands).
  { apply Forall_forall. intros c (f & _ & Hf)%list_elem_of_omap.
    by eapply candidate_of_filed. }
  destruct (sort_by_quality_sorted cands Hfiled)
    as (sorted & Hsort & Hperm & Hsorted).
  assert (Hfiled' : Forall filed sorted) by (by rewrite Hperm).
  destruct (dedup_loop sorted [] [] ∅ dedup_inv_empty Hfiled' Hsorted)
    as (U & S & Hloop & Hinv).
  assert (Hpicks : picks sorted U).
  { eapply (dedup_loop_picks sorted [] [] U ∅ S);
      [exact dedup_inv_empty| |done|done|exact Hloop].
    intros c Hc. by apply not_elem_of_nil in Hc. }
  exists (render <$> U). split.
  - unfold get_formats. destruct url; [done|]. simpl. rewrite Hinfo. simpl.
    unfold list_formats. fold cands. rewrite Hsort. simpl.
    unfold deduplicate. by rewrite Hloop.
  - intros e (c & -> & Hc)%list_elem_of_fmap. exists c. split; [|done].
    simpl. rewrite <- (Hpicks c Hc). f_equal. symmetry.
    apply sort_by_quality_stable; [done| |done].
    rewrite Forall_forall in Hfiled'. apply Hfiled'.
    destruct Hinv as (_ & _ & _ & Hfrom & _). by apply Hfrom.
Qed.

(** ** From dispatch to retrieval *)

(** X19: a job whose download raises ends in the 'error' state with the
    exception text in its message: the failure shows up in polling only,
    and there is no file to fetch. *)
Theorem failed_job_reported (st st1 st2 : system) (now now' : Q)
    (fresh msg : string) (rq : request) :
  truthy (rq_url rq) = true ->
  step st (Dispatch now fresh rq) = Some st1 ->
  step st1 (Finish now' fresh (Raised msg)) = Some st2 ->
  get_status fresh st2 =
    JobRecord 200 (Job "error" (Some ("Error: " +:+ msg)) (Finite 0) None now')
  /\
  download_file fresh st2 = Error 404 "File not ready" /\
  workers st2 !! fresh = None.
Proof.
  intros Hurl Hd Hf. simpl in Hd. case_bool_decide; [done|].
  unfold start_download in Hd. rewrite Hurl in Hd. simpl in Hd.
  injection Hd as <-.
  simpl in Hf. rewrite lookup_insert_eq in Hf. injection Hf as <-.
  unfold get_status, download_file, download_task_finish, update_job_status.
  simpl. rewrite !lookup_insert_eq, lookup_delete_eq. done.
Qed.


End App.

(** ** The statements on the sample inputs

    [decimal_float] stands for [float()] and [/srv] for the working
    directory. *)

Ltac by_evaluation := vm_compute; reflexivity.

Ltac in_sample_trace H :=
  repeat (apply elem_of_cons in H as [H|H]; [try discriminate H|]);
  [..|by apply not_elem_of_nil in H].

(** C4 on a 'downloading', a 'finished' and an 'error' event. *)
Lemma progress_hook_writes_sample :
  progress_hook decimal_float 11 "job-a"
    (Event "downloading" (Some " 45.3%")) ∅ =
    <["job-a" := Job "downloading" (Some "Downloading...  45.3%")
                   (Finite (453 # 10)) None 11]> ∅ /\
  progress_hook decimal_float 12 "job-a" (Event "finished" None) ∅ =
    <["job-a" := Job "processing" (Some "Processing with ffmpeg...")
                   (Finite 100) None 12]> ∅ /\
  progress_hook decimal_float 13 "job-a" (Event "error" None) ∅ = ∅.
Proof.
  split; [|split].
  - exact (proj1 (progress_hook_writes decimal_float 11 "job-a"
                    (Event "downloading" (Some " 45.3%")) ∅) eq_refl).
  - exact (proj1 (proj2 (progress_hook_writes decimal_float 12 "job-a"
                           (Event "finished" None) ∅)) eq_refl).
  - apply (proj2 (proj2 (progress_hook_writes decimal_float 13 "job-a"
                           (Event "error" None) ∅))); discriminate.
Defined.

(** C10 with [decimal_float]. *)
Lemma progress_hook_without_percent_sample :
  decimal_float "0" = Some (Finite 0) /\
  progress_hook decimal_float 11 "job-a" (Event "downloading" None) ∅ =
    <["job-a" := Job "downloading" (Some "Downloading... 0%") (Finite 0)
                   None 11]> ∅.
Proof.
  split; [reflexivity|].
  apply (progress_hook_without_percent decimal_float 11 "job-a" ∅).
  reflexivity.
Defined.

(** C3 on a request with an empty url and on [sample_request]. *)
Lemma start_download_dispatch_sample :
  start_download 10 "job-a" (Request (Some "") (Some "video") (Some "137"))
    initial = (Error 400 "URL is required", initial) /\
  (start_download 10 "job-a" sample_request initial).1 = JobId 200 "job-a" /\
  get_status "job-a" (start_download 10 "job-a" sample_request initial).2 =
    JobRecord 200
      (Job "starting" (Some "Starting process...") (Finite 0) None 10).
Proof.
  split.
  - exact (proj1 (start_download_dispatch 10 "job-a"
                    (Request (Some "") (Some "video") (Some "137")) initial)
             eq_refl).
  - destruct (proj2 (start_download_dispatch 10 "job-a" sample_request
                       initial) "https://example/video" eq_refl)
      as (Hresp & _ & _ & _ & _ & Hpoll); [discriminate|].
    split; [exact Hresp|exact Hpoll].
Defined.

(** C7 on [sample_store] at time 4000. *)
Lemma cleanup_cycle_sweeps_sample :
  exists st',
    cleanup_cycle "/srv" 4000 (fun _ => true) sample_store = inr st' /\
    jobs st' !! "old" = None /\
    jobs st' !! "new" = jobs sample_store !! "new" /\
    "/srv/downloads/old_Clip.mp4" ∉ files st'.
Proof.
  destruct (cleanup_cycle_sweeps "/srv" 4000 (fun _ => true) sample_store)
    as (st' & Hrun & Hold & Hyoung & _ & Hfiles & _).
  exists st'. split; [exact Hrun|]. split; [|split].
  - eapply Hold; [by_evaluation|reflexivity].
  - etrans; [eapply Hyoung; [by_evaluation|]|by_evaluation].
    vm_compute. discriminate.
  - intros Hin. apply Hfiles in Hin as [_ Hnot]. apply Hnot.
    exists "old", (Job "completed" (Some "Finished!") (Finite 100)
                     (Some "old_Clip.mp4") 0), "old_Clip.mp4".
    split; [by_evaluation|]. split; [reflexivity|].
    split; [reflexivity|]. split; [discriminate|]. split; reflexivity.
Defined.

(** C1 on [sample_trace], and the success write of its worker. *)
Lemma filename_iff_completed_sample :
  let st := default initial (run decimal_float "/srv" initial sample_trace) in
  let st0 :=
    default initial
      (step decimal_float "/srv" initial
         (Dispatch 10 "job-a" sample_request)) in
  run decimal_float "/srv" initial sample_trace = Some st /\
  prepared_names_ok "/srv" sample_trace /\
  (forall k j,
     jobs st !! k = Some j ->
     (truthy (filename j) = true <-> status j = "completed") /\
     (status j <> "completed" -> filename j = None)) /\
  exists st1 j n,
    step decimal_float "/srv" st0
      (Finish 13 "job-a" (Returned "/srv/downloads/job-a_Clip.mp4")) =
      Some st1 /\
    jobs st1 !! "job-a" = Some j /\ status j = "completed" /\
    filename j = Some n /\ n <> "".
Proof.
  intros st st0.
  assert (Hrun : run decimal_float "/srv" initial sample_trace = Some st)
    by by_evaluation.
  assert (Hnames : prepared_names_ok "/srv" sample_trace).
  { intros now job_id prepared Hin. unfold sample_trace in Hin.
    in_sample_trace Hin. injection Hin as -> -> ->.
    exists "Clip", "mp4". split; reflexivity. }
  destruct (filename_iff_completed decimal_float "/srv" sample_trace st
              Hrun Hnames) as (Hinv & _ & _ & _ & Hsuccess).
  do 3 (split; [assumption|]).
  apply (Hsuccess st0
           (Worker "https://example/video"
              (choose_format_opts (Some "video") (Some "137")))
           13%Q "job-a" "/srv/downloads/job-a_Clip.mp4"); [by_evaluation|].
  exists "Clip", "mp4". split; reflexivity.
Defined.

(** C2 fails on the code.  Beside a cookie file, "job-a" is written
    'completed' and a poll returns that record; the thread then leaves its
    [with] block with an exception, the [except] clause writes the record
    again, and the next poll returns an 'error' record. *)
Theorem completed_record_overwritten :
  let before :=
    default initial (run decimal_float "/srv" initial sample_cookies) in
  let after :=
    default initial (step decimal_float "/srv" before sample_exit_raises) in
  run decimal_float "/srv" initial sample_cookies = Some before /\
  get_status "job-a" before =
    JobRecord 200
      (Job "completed" (Some "Finished!") (Finite 100)
         (Some "job-a_Clip.mp4") 13) /\
  step decimal_float "/srv" before sample_exit_raises = Some after /\
  written_ids decimal_float "/srv" before [sample_exit_raises] = ["job-a"] /\
  get_status "job-a" after =
    JobRecord 200
      (Job "error"
         (Some "Error: [Errno 13] Permission denied: 'cookies.txt'")
         (Finite 0) None 14).
Proof. intros before after. repeat split; by_evaluation. Qed.

(** C5, as the code has it, on [sample_trace]. *)
Lemma progress_follows_reports_sample :
  exists st,
    run decimal_float "/srv" initial sample_trace = Some st /\
    percentages_in_range decimal_float sample_trace /\
    forall k j,
      jobs st !! k = Some j -> in_percent_range (progress j) = true.
Proof.
  pose (st := default initial (run decimal_float "/srv" initial sample_trace)).
  assert (Hrun : run decimal_float "/srv" initial sample_trace = Some st)
    by by_evaluation.
  assert (Hrange : percentages_in_range decimal_float sample_trace).
  { intros now job_id d x Hin Hd Hx. unfold sample_trace in Hin.
    in_sample_trace Hin; injection Hin as -> -> ->.
    - vm_compute in Hx. by injection Hx as <-.
    - discriminate Hd. }
  exists st. split; [exact Hrun|]. split; [exact Hrange|].
  exact (proj1 (progress_follows_reports decimal_float "/srv" sample_trace st
                  Hrun Hrange)).
Defined.

(** C5 as stated fails: a reported 150% is stored as 150, and a report of
    20% after one of 50% lowers the stored progress of a 'downloading'
    record. *)
Lemma progress_unclamped_counterexample :
  (exists st j,
     run decimal_float "/srv" initial sample_overshoot = Some st /\
     jobs st !! "job-a" = Some j /\
     status j = "downloading" /\
     progress j = Finite 150 /\
     in_percent_range (progress j) = false) /\
  (exists j j',
     let first :=
       progress_hook decimal_float 11 "job-a"
         (Event "downloading" (Some "50.0%")) ∅ in
     let second :=
       progress_hook decimal_float 12 "job-a"
         (Event "downloading" (Some "20.0%")) first in
     first !! "job-a" = Some j /\ second !! "job-a" = Some j' /\
     status j = "downloading" /\ status j' = "downloading" /\
     progress j = Finite 50 /\ progress j' = Finite 20 /\
     pyfloat_le (progress j) (progress j') = false).
Proof.
  split.
  - exists (default initial
              (run decimal_float "/srv" initial sample_overshoot)),
      (Job "downloading" (Some "Downloading... 150%") (Finite 150) None 11).
    split; [by_evaluation|]. split; [by_evaluation|]. by repeat split.
  - exists (Job "downloading" (Some "Downloading... 50.0%") (Finite 50) None 11),
      (Job "downloading" (Some "Downloading... 20.0%") (Finite 20) None 12).
    split; [by_evaluation|]. split; [by_evaluation|]. by repeat split.
Qed.

(** C8 as stated fails: without a cookie file the key 'cookiefile' is still
    in both option dicts, with the value [None]. *)
Lemma cookiefile_none_counterexample :
  "cookies.txt" ∉ (∅ : gset string) /\
  dict_get "cookiefile"
    (download_ydl_opts "/srv" ∅ "job-a"
       (choose_format_opts (Some "video") (Some "137"))) = Some VNone /\
  dict_get "cookiefile" (formats_ydl_opts ∅) = Some VNone /\
  dict_get "cookiefile" (formats_ydl_opts ∅) <> None.
Proof.
  split; [apply not_elem_of_empty|]. by repeat split.
Qed.

(** C6 on [sample_formats]. *)
Lemma get_formats_listing_sample :
  "https://example/video" <> "" /\
  sample_extract_info (formats_ydl_opts ∅) "https://example/video" =
    inr sample_info /\
  exists out,
    get_formats sample_extract_info ∅ (Some "https://example/video") =
      Listing 200 (Some "Clip") None out /\
    listing_ok sample_formats out.
Proof.
  split; [discriminate|]. split; [reflexivity|].
  apply (get_formats_listing sample_extract_info ∅ "https://example/video"
           sample_info); [discriminate|reflexivity].
Defined.

(** C9 on [sample_formats]. *)
Lemma get_formats_rendering_sample :
  "https://example/video" <> "" /\
  sample_extract_info (formats_ydl_opts ∅) "https://example/video" =
    inr sample_info /\
  exists out,
    get_formats sample_extract_info ∅ (Some "https://example/video") =
      Listing 200 (Some "Clip") None out /\
    forall e, e ∈ out ->
      exists f h,
        f ∈ sample_formats /\ video_at f h /\
        l_id e = f_format_id f /\ l_quality e = pretty h +:+ "p" /\
        if has_audio f
        then l_ext e = f_ext f /\ l_note e = "Video + Audio" /\
             l_needs_merge e = false
        else l_ext e = Some "mp4" /\ l_note e = "HD (Video Only)" /\
             l_needs_merge e = true.
Proof.
  split; [discriminate|]. split; [reflexivity|].
  apply (get_formats_rendering sample_extract_info ∅ "https://example/video"
           sample_info); [discriminate|reflexivity].
Defined.

(** The listing of [sample_formats], evaluated: 1080p video only, then the
    720p format with audio. *)
Example get_formats_sample_value :
  get_formats sample_extract_info ∅ (Some "https://example/video") =
    Listing 200 (Some "Clip") None
      [ Listed (Some "248") (Some "mp4") "1080p" "HD (Video Only)" None true;
        Listed (Some "22") (Some "mp4") "720p" "Video + Audio" None false ].
Proof. by_evaluation. Qed.


(** ** The further statements on the sample inputs *)

Ltac sample_names_ok :=
  let now := fresh "now" in
  let job_id := fresh "job_id" in
  let prepared := fresh "prepared" in
  let Hin := fresh "Hin" in
  intros now job_id prepared Hin; unfold sample_trace in Hin;
  in_sample_trace Hin; injection Hin as -> -> ->;
  exists "Clip", "mp4"; split; reflexivity.


(** X2 on a prepared video file. *)
Lemma recorded_name_locates_artifact_sample :
  let fo := choose_format_opts (Some "video") (Some "137") in
  path_join (DOWNLOAD_FOLDER "/srv")
    (basename
       (final_filename fo
          (path_join (DOWNLOAD_FOLDER "/srv") "job-a_Clip.mp4"))) =
  "/srv/downloads/job-a_Clip.mp4".
Proof.
  intros fo.
  exact (recorded_name_locates_artifact "/srv" fo "job-a_Clip.mp4"
           eq_refl eq_refl).
Defined.

(** X3 on the job "job-a". *)
Lemma outtmpl_per_job_sample :
  exists tmpl,
    dict_get "outtmpl"
      (download_ydl_opts "/srv" ∅ "job-a"
         (choose_format_opts (Some "video") (Some "137"))) =
      Some (VStr tmpl) /\
    basename tmpl = "job-a_%(title)s.%(ext)s".
Proof.
  destruct (outtmpl_per_job "/srv" ∅ "job-a"
              (choose_format_opts (Some "video") (Some "137")) eq_refl)
    as (tmpl & Hopt & _ & Hbase & _).
  exists tmpl. split; [exact Hopt|exact Hbase].
Defined.

(** X4 on the record of "job-a" after [sample_trace]. *)
Lemma reachable_record_shape_sample :
  let st := default initial (run decimal_float "/srv" initial sample_trace) in
  let j := Job "completed" (Some "Finished!") (Finite 100)
             (Some "job-a_Clip.mp4") 13 in
  run decimal_float "/srv" initial sample_trace = Some st /\
  jobs st !! "job-a" = Some j /\
  status j = "completed" /\ is_Some (filename j).
Proof.
  intros st j.
  assert (Hrun : run decimal_float "/srv" initial sample_trace = Some st)
    by by_evaluation.
  assert (Hj : jobs st !! "job-a" = Some j) by by_evaluation.
  do 2 (split; [assumption|]).
  destruct (reachable_record_shape decimal_float "/srv" sample_trace st
              "job-a" j Hrun Hj)
    as [(H & _)|[(H & _)|[(H & _)|[(H & _ & _ & Hname)|(H & _)]]]];
    try discriminate H.
  split; [exact H|exact Hname].
Defined.

(** X5: the failure of "job-b" leaves the record of "job-a" alone. *)
Lemma other_jobs_untouched_sample :
  let st :=
    default initial (run decimal_float "/srv" initial sample_two_jobs) in
  let a := Finish 23 "job-b" (Raised "network unreachable") in
  let st' := default initial (step decimal_float "/srv" st a) in
  step decimal_float "/srv" st a = Some st' /\
  jobs st' !! "job-a" = jobs st !! "job-a" /\
  workers st' !! "job-a" = workers st !! "job-a" /\
  files st' = files st.
Proof.
  intros st a st'.
  assert (Hstep : step decimal_float "/srv" st a = Some st') by by_evaluation.
  split; [exact Hstep|].
  apply (other_jobs_untouched decimal_float "/srv" st st' a "job-b" "job-a"
           Hstep eq_refl).
  discriminate.
Defined.

(** X6: dispatching "job-b" after [sample_trace] keeps the record of
    "job-a". *)
Lemma dispatch_keeps_records_sample :
  let st := default initial (run decimal_float "/srv" initial sample_trace) in
  let st' :=
    default initial
      (step decimal_float "/srv" st
         (Dispatch 20 "job-b" sample_audio_request)) in
  let j := Job "completed" (Some "Finished!") (Finite 100)
             (Some "job-a_Clip.mp4") 13 in
  "job-a" <> "job-b" /\ jobs st' !! "job-a" = Some j.
Proof.
  intros st st' j.
  apply (dispatch_keeps_records decimal_float "/srv" sample_trace st st' 20
           "job-b" sample_audio_request "job-a" j); by_evaluation.
Defined.

(** X7: "job-z" was never dispatched in [sample_trace]. *)
Lemma unknown_job_not_found_sample :
  let st := default initial (run decimal_float "/srv" initial sample_trace) in
  get_status "job-z" st = Error 404 "Job not found" /\
  download_file "/srv" "job-z" st = Error 404 "File not ready".
Proof.
  intros st.
  apply (unknown_job_not_found decimal_float "/srv" sample_trace st "job-z");
    [by_evaluation|].
  assert (dispatched_ids sample_trace = ["job-a"]) as -> by reflexivity.
  intros Hin. apply list_elem_of_singleton in Hin. discriminate Hin.
Defined.


(** X9: sweeping [sample_store] twice at time 4000. *)
Lemma cleanup_cycle_idempotent_sample :
  let st' :=
    match cleanup_cycle "/srv" 4000 (fun _ => true) sample_store with
    | inr st' => st'
    | inl _ => sample_store
    end in
  cleanup_cycle "/srv" 4000 (fun _ => true) sample_store = inr st' /\
  cleanup_cycle "/srv" 4000 (fun _ => false) st' = inr st'.
Proof.
  intros st'.
  assert (Hrun : cleanup_cycle "/srv" 4000 (fun _ => true) sample_store =
                 inr st') by by_evaluation.
  split; [exact Hrun|].
  exact (cleanup_cycle_idempotent "/srv" 4000 (fun _ => true)
           (fun _ => false) sample_store st' Hrun).
Defined.


(** X11: "job-a", whose thread has ended, is still there after
    [sample_later], whose sweep comes 9 seconds after its completion. *)
Lemma terminal_record_retained_sample :
  let st := default initial (run decimal_float "/srv" initial sample_ended) in
  let st' := default initial (run decimal_float "/srv" st sample_later) in
  let j := Job "completed" (Some "Finished!") (Finite 100)
             (Some "job-a_Clip.mp4") 13 in
  "job-a" ∉ closing st /\
  get_status "job-a" st' = JobRecord 200 j.
Proof.
  intros st st' j.
  assert (Hended : "job-a" ∉ closing st).
  { apply (bool_decide_unpack _). by_evaluation. }
  split; [exact Hended|].
  apply (terminal_record_retained decimal_float "/srv" sample_ended
           sample_later st st' "job-a" j);
    [by_evaluation|by_evaluation|by left|done|by_evaluation|].
  intros now removable Hin. unfold sample_later in Hin.
  in_sample_trace Hin. injection Hin as -> _.
  vm_compute. discriminate.
Defined.

(** X12: "job-a", whose thread has ended, is gone after [sample_next_day],
    whose sweep comes 3987 seconds after its completion. *)
Lemma expired_record_gone_sample :
  let st := default initial (run decimal_float "/srv" initial sample_ended) in
  let st' := default initial (run decimal_float "/srv" st sample_next_day) in
  "job-a" ∉ closing st /\
  get_status "job-a" st' = Error 404 "Job not found" /\
  download_file "/srv" "job-a" st' = Error 404 "File not ready".
Proof.
  intros st st'.
  assert (Hended : "job-a" ∉ closing st).
  { apply (bool_decide_unpack _). by_evaluation. }
  split; [exact Hended|].
  apply (expired_record_gone decimal_float "/srv" sample_ended
           [Dispatch 20 "job-b" sample_audio_request]
           [Finish 4100 "job-b" (Raised "network unreachable")]
           st st' "job-a"
           (Job "completed" (Some "Finished!") (Finite 100)
              (Some "job-a_Clip.mp4") 13)
           4000 (fun _ => true));
    [by_evaluation|by_evaluation|by left|done|reflexivity|by_evaluation].
Defined.

(** X21: "job-a", whose thread has ended, along [sample_later]: nothing
    writes its record and the poll at the end returns it. *)
Lemma ended_job_frozen_sample :
  let st := default initial (run decimal_float "/srv" initial sample_ended) in
  let st' := default initial (run decimal_float "/srv" st sample_later) in
  let j := Job "completed" (Some "Finished!") (Finite 100)
             (Some "job-a_Clip.mp4") 13 in
  "job-a" ∉ closing st /\
  ("job-a" ∉ written_ids decimal_float "/srv" st sample_later) /\
  get_status "job-a" st' = JobRecord 200 j.
Proof.
  intros st st' j.
  assert (Hended : "job-a" ∉ closing st).
  { apply (bool_decide_unpack _). by_evaluation. }
  split; [exact Hended|].
  destruct (ended_job_frozen decimal_float "/srv" sample_ended sample_later
              st st' "job-a" j)
    as [Hids [[_ Hpoll]|[Hnone _]]];
    [by_evaluation|by_evaluation|by left|done|by_evaluation|by split|].
  vm_compute in Hnone. discriminate Hnone.
Defined.

(** X14: a report at time 11 and a sweep at time 22. *)
Lemma reported_job_survives_sweep_sample :
  let st :=
    default initial
      (step decimal_float "/srv" initial
         (Dispatch 10 "job-a" sample_request)) in
  let d := Event "downloading" (Some " 45.3%") in
  let st1 :=
    default initial (step decimal_float "/srv" st (Progress 11 "job-a" d)) in
  let st2 :=
    default initial
      (step decimal_float "/srv" st1 (Sweep 22 (fun _ => true))) in
  exists j,
    jobs st1 !! "job-a" = Some j /\ timestamp j = 11%Q /\
    jobs st2 !! "job-a" = Some j.
Proof.
  intros st d st1 st2.
  apply (reported_job_survives_sweep decimal_float "/srv" st st1 st2 11 22
           "job-a" d (fun _ => true));
    [by_evaluation|by left| |by_evaluation].
  vm_compute. discriminate.
Defined.

(** X15: the job "new" of [sample_store], silent since 3900, at a sweep at
    time 8000. *)
Lemma silent_job_swept_then_rewritten_sample :
  let st1 :=
    default initial
      (step decimal_float "/srv" sample_store (Sweep 8000 (fun _ => true))) in
  get_status "new" st1 = Error 404 "Job not found" /\
  is_Some (workers st1 !! "new") /\
  exists st2 j',
    step decimal_float "/srv" st1
      (Finish 8100 "new" (Returned "/srv/downloads/new_Clip.mp4")) = Some st2 /\
    get_status "new" st2 = JobRecord 200 j' /\ terminal j'.
Proof.
  intros st1.
  destruct (silent_job_swept_then_rewritten decimal_float "/srv" sample_store
              st1 8000 8100 "new"
              (Worker "https://example/video"
                 (FormatOpts (Some "bestvideo+bestaudio/best") None None))
              (Job "downloading" (Some "Downloading... 10%") (Finite 10)
                 None 3900)
              (fun _ => true) (Returned "/srv/downloads/new_Clip.mp4"))
    as (Hpoll & Hworker & st2 & j' & Hstep & Hpoll' & Hterminal & _);
    [by_evaluation|by_evaluation|reflexivity|by_evaluation|].
  split; [exact Hpoll|]. split; [by rewrite Hworker|].
  exists st2, j'. split; [exact Hstep|]. split; [exact Hpoll'|exact Hterminal].
Defined.

(** X17 on [sample_formats]: two entries. *)
Lemma get_formats_listing_size_sample :
  exists out,
    get_formats sample_extract_info ∅ (Some "https://example/video") =
      Listing 200 (Some "Clip") None out /\
    (List.length out <= 6)%nat /\
    (out = [] <-> forall f h, f ∈ sample_formats -> ~ video_at f h).
Proof.
  apply (get_formats_listing_size sample_extract_info ∅
           "https://example/video" sample_info); [discriminate|reflexivity].
Defined.

(** X18 on [sample_formats]: at 720p the format "22", which has audio, is
    preferred to the format "247" that comes first. *)
Lemma get_formats_lists_preferred_sample :
  exists out,
    get_formats sample_extract_info ∅ (Some "https://example/video") =
      Listing 200 (Some "Clip") None out /\
    forall e, e ∈ out ->
      exists c,
        preferred
          (at_quality (l_quality e) (omap candidate_of sample_formats)) =
          Some c /\
        e = render c.
Proof.
  apply (get_formats_lists_preferred sample_extract_info ∅
           "https://example/video" sample_info); [discriminate|reflexivity].
Defined.

(** X19 on a job whose download fails. *)
Lemma failed_job_reported_sample :
  let st1 :=
    default initial
      (step decimal_float "/srv" initial
         (Dispatch 20 "job-b" sample_audio_request)) in
  let st2 :=
    default initial
      (step decimal_float "/srv" st1
         (Finish 23 "job-b" (Raised "network unreachable"))) in
  get_status "job-b" st2 =
    JobRecord 200
      (Job "error" (Some "Error: network unreachable") (Finite 0) None 23) /\
  download_file "/srv" "job-b" st2 = Error 404 "File not ready" /\
  workers st2 !! "job-b" = None.
Proof.
  intros st1 st2.
  apply (failed_job_reported decimal_float "/srv" initial st1 st2 20 23
           "job-b" "network unreachable" sample_audio_request);
    [reflexivity|by_evaluation|by_evaluation].
Defined.


(** The same job when nothing is on disk: the record is 'completed' and the
    file is not found. *)
Example video_job_without_file_value :
  let st := default initial (run decimal_float "/srv" initial sample_trace) in
  get_status "job-a" st =
    JobRecord 200
      (Job "completed" (Some "Finished!") (Finite 100)
         (Some "job-a_Clip.mp4") 13) /\
  download_file "/srv" "job-a" st = Error 404 "Not Found".
Proof. intros st. split; by_evaluation. Qed.
